(** * mesh-viewer.js: three synchronized model viewers

    A shallow embedding of [src/js/mesh-viewer.js].  The script keeps four
    module-level variables ([allViewers], [isSyncing], [isRotating],
    [isPaused]) and mutates objects of the three.js library and of the DOM
    through references.  The embedding keeps that shape: a [Page] holds the
    four variables, a heap of the objects the script allocates (addressed by
    reference, so aliasing is visible), the part of the document the script
    reads and writes, and the list of model loads it has issued.

    JavaScript numbers are binary64 floats ([PrimFloat.float]).  The
    three.js operations the script calls (vector arithmetic, the spherical
    conversions, [OrbitControls.update]) are third-party code; they enter as
    the interface [ThreeLib].  What the browser's selector engine answers
    for a sample name that is not plain text inside a CSS string enters as
    the interface [SelectorEngine]. *)

From Stdlib Require Import PrimFloat.
From stdpp Require Import gmap strings list fin_maps.

Set Warnings "-inexact-float".
Local Open Scope string_scope.

(** ** Values *)

Abbreviation number := float.
Abbreviation ref := nat.

(** What the script can hold where it expects a number: a number, or what
    a property read found on [Object.prototype] under [name] (a function,
    or for [__proto__] the prototype itself). *)
Inductive Value := Num (n : number) | Inherited (name : string).

Module THREE.
Record Vector3 := mkVector3 { x : number; y : number; z : number }.
Record Spherical := mkSpherical { radius : number; phi : number; theta : number }.

(** The [scale] of a loaded model: a [Vector3] whose components are
    whatever the script stored in them. *)
Record Scale := mkScale { scale_x : Value; scale_y : Value; scale_z : Value }.

(** [v.setScalar(s)]: the three components become [s], unconverted. *)
Definition setScalar (s : Value) : Scale := mkScale s s s.
End THREE.
Import THREE.

(** JavaScript truthiness of a number: [0], [-0] and [NaN] are falsy. *)
Definition truthy (n : number) : bool :=
  negb (PrimFloat.eqb n 0%float || negb (PrimFloat.eqb n n)).

(** Functions and objects are truthy. *)
Definition Value_truthy (v : Value) : bool :=
  match v with Num n => truthy n | Inherited _ => true end.

(** ** Property reads on an object literal

    [o[key]] finds an own property of the literal, or else a property of
    [Object.prototype], or else [undefined].  [Object_prototype] lists the
    names the prototype holds (ECMAScript, with the legacy accessors every
    browser ships). *)
Definition Object_prototype : list string :=
  [ "constructor"; "__defineGetter__"; "__defineSetter__"; "hasOwnProperty";
    "__lookupGetter__"; "__lookupSetter__"; "isPrototypeOf"; "propertyIsEnumerable";
    "toString"; "valueOf"; "__proto__"; "toLocaleString" ].

Inductive Property (A : Type) : Type :=
| Own (a : A)
| FromPrototype (name : string)
| Undefined.
Arguments Own {A} a.
Arguments FromPrototype {A} name.
Arguments Undefined {A}.

Definition get {A} (o : gmap string A) (key : string) : Property A :=
  match o !! key with
  | Some a => Own a
  | None => if bool_decide (key ∈ Object_prototype) then FromPrototype key else Undefined
  end.

(** ** Objects on the heap *)

(** [THREE.PerspectiveCamera]: its position, and the point it was last
    turned towards by [lookAt] ([None]: the orientation it was built with). *)
Record PerspectiveCamera := mkCamera {
  position : Vector3;
  lookAt : option Vector3 }.

(** [OrbitControls]: [object] is the camera it drives. *)
Record OrbitControls := mkControls {
  object : ref;
  target : Vector3;
  enablePan : bool;
  enableZoom : bool;
  autoRotate : bool;
  autoRotateSpeed : number;
  userIsInteracting : bool }.

Record WebGLRenderer := mkRenderer { disposed : bool }.

Record Material := mkMaterial {
  roughness : number; metalness : number; envMapIntensity : number;
  needsUpdate : bool }.

Record Mesh := mkMesh {
  isMesh : bool; castShadow : bool; receiveShadow : bool;
  material : option Material }.

(** [gltf.scene]: the root of a loaded model, with the nodes [traverse]
    visits. *)
Record Model := mkModel { scale : Scale; nodes : list Mesh }.

Record Scene := mkScene { ground : bool; models : list Model }.

(** A DOM node created by the script: a viewer container, or a loading
    indicator.  [children] lists what was appended to it. *)
Inductive Node := Canvas (renderer : ref) | Element (el : ref).

Record HTMLElement := mkElement {
  className : string;
  innerText : string;
  display : string;
  children : list Node }.

(** What [initViewer] returns. *)
Record Viewer := mkViewer {
  scene : ref; camera : ref; renderer : ref; controls : ref; container : ref }.

Record Heap := mkHeap {
  cameras : gmap ref PerspectiveCamera;
  orbits : gmap ref OrbitControls;
  renderers : gmap ref WebGLRenderer;
  scenes : gmap ref Scene;
  elems : gmap ref HTMLElement;
  next : ref }.

(** ** The document

    Of the host page the script touches the elements with the class
    [tab-button] or the attribute [data-obj], [.viewers-container],
    [#btn-rotate], [#btn-pause] and the console.  The three fixed elements
    are taken to exist, as the script takes them; the others are whatever
    the page provides. *)

(** An element with the class [tab-button] or the attribute [data-obj]:
    whether it has the class (only then is it highlighted and clickable),
    its [dataset] (a missing attribute reads as [undefined], [None]), and
    whether it has the class [active]. *)
Record TabButton := mkTabButton {
  tab_button : bool;
  data_obj : option string;
  data_condition : option string;
  data_gen1 : option string;
  data_gen2 : option string;
  active : bool }.

(** The markup [loadTab] writes into [.viewers-container]: the two captions
    and the three viewer divs it contains. *)
Record Markup := mkMarkup {
  caption1 : string; caption2 : string;
  condition_viewer : ref; gen1_viewer : ref; gen2_viewer : ref }.

(** [tabButtons]: those elements, in document order. *)
Record Document := mkDocument {
  tabButtons : list TabButton;
  viewers_container : option Markup;
  btn_rotate : string;
  btn_pause : string;
  console : list string }.

(** One call of [loader.load]: the path, and what its two callbacks close
    over. *)
Record LoadRequest := mkLoad {
  glbPath : option string;
  load_scene : ref;
  load_scale : Value;
  load_loading : ref }.

(** ** The page state *)

Record Page := mkPage {
  allViewers : list Viewer;
  isSyncing : bool;
  isRotating : bool;
  isPaused : bool;
  heap : Heap;
  document : Document;
  loads : list LoadRequest }.

#[global] Instance viewer_eq_dec : EqDecision Viewer.
Proof. solve_decision. Defined.

#[global] Instance vector3_inhabited : Inhabited Vector3 :=
  populate (mkVector3 0 0 0).
#[global] Instance camera_inhabited : Inhabited PerspectiveCamera :=
  populate (mkCamera inhabitant None).
#[global] Instance controls_inhabited : Inhabited OrbitControls :=
  populate (mkControls 0 inhabitant true true false 2 false).
#[global] Instance renderer_inhabited : Inhabited WebGLRenderer :=
  populate (mkRenderer false).
#[global] Instance scene_inhabited : Inhabited Scene :=
  populate (mkScene false []).
#[global] Instance element_inhabited : Inhabited HTMLElement :=
  populate (mkElement "" "" "" []).

(** ** Assignments *)

Definition set_allViewers (l : list Viewer) (st : Page) : Page :=
  mkPage l (isSyncing st) (isRotating st) (isPaused st) (heap st) (document st) (loads st).
Definition set_isSyncing (b : bool) (st : Page) : Page :=
  mkPage (allViewers st) b (isRotating st) (isPaused st) (heap st) (document st) (loads st).
Definition set_isRotating (b : bool) (st : Page) : Page :=
  mkPage (allViewers st) (isSyncing st) b (isPaused st) (heap st) (document st) (loads st).
Definition set_isPaused (b : bool) (st : Page) : Page :=
  mkPage (allViewers st) (isSyncing st) (isRotating st) b (heap st) (document st) (loads st).
Definition set_heap (h : Heap) (st : Page) : Page :=
  mkPage (allViewers st) (isSyncing st) (isRotating st) (isPaused st) h (document st) (loads st).
Definition set_document (d : Document) (st : Page) : Page :=
  mkPage (allViewers st) (isSyncing st) (isRotating st) (isPaused st) (heap st) d (loads st).
Definition set_loads (l : list LoadRequest) (st : Page) : Page :=
  mkPage (allViewers st) (isSyncing st) (isRotating st) (isPaused st) (heap st) (document st) l.

Definition set_cameras (m : gmap ref PerspectiveCamera) (h : Heap) : Heap :=
  mkHeap m (orbits h) (renderers h) (scenes h) (elems h) (next h).
Definition set_orbits (m : gmap ref OrbitControls) (h : Heap) : Heap :=
  mkHeap (cameras h) m (renderers h) (scenes h) (elems h) (next h).
Definition set_renderers (m : gmap ref WebGLRenderer) (h : Heap) : Heap :=
  mkHeap (cameras h) (orbits h) m (scenes h) (elems h) (next h).
Definition set_scenes (m : gmap ref Scene) (h : Heap) : Heap :=
  mkHeap (cameras h) (orbits h) (renderers h) m (elems h) (next h).
Definition set_elems (m : gmap ref HTMLElement) (h : Heap) : Heap :=
  mkHeap (cameras h) (orbits h) (renderers h) (scenes h) m (next h).
Definition set_next (n : ref) (h : Heap) : Heap :=
  mkHeap (cameras h) (orbits h) (renderers h) (scenes h) (elems h) n.

(** Mutation of a field of the object behind a reference.  A JavaScript
    reference always points at an object; [!!!] makes the read total. *)
Definition modify {A} `{Inhabited A} (f : A → A) (r : ref) (m : gmap ref A) : gmap ref A :=
  <[r := f (m !!! r)]> m.

Definition camera_at (st : Page) (r : ref) : PerspectiveCamera := cameras (heap st) !!! r.
Definition controls_at (st : Page) (r : ref) : OrbitControls := orbits (heap st) !!! r.
Definition renderer_at (st : Page) (r : ref) : WebGLRenderer := renderers (heap st) !!! r.
Definition scene_at (st : Page) (r : ref) : Scene := scenes (heap st) !!! r.
Definition element_at (st : Page) (r : ref) : HTMLElement := elems (heap st) !!! r.

Definition modify_camera (f : PerspectiveCamera → PerspectiveCamera) (r : ref) (st : Page) : Page :=
  set_heap (set_cameras (modify f r (cameras (heap st))) (heap st)) st.
Definition modify_controls (f : OrbitControls → OrbitControls) (r : ref) (st : Page) : Page :=
  set_heap (set_orbits (modify f r (orbits (heap st))) (heap st)) st.
Definition modify_renderer (f : WebGLRenderer → WebGLRenderer) (r : ref) (st : Page) : Page :=
  set_heap (set_renderers (modify f r (renderers (heap st))) (heap st)) st.
Definition modify_scene (f : Scene → Scene) (r : ref) (st : Page) : Page :=
  set_heap (set_scenes (modify f r (scenes (heap st))) (heap st)) st.
Definition modify_element (f : HTMLElement → HTMLElement) (r : ref) (st : Page) : Page :=
  set_heap (set_elems (modify f r (elems (heap st))) (heap st)) st.

Definition set_position (p : Vector3) (c : PerspectiveCamera) : PerspectiveCamera :=
  mkCamera p (lookAt c).
Definition set_lookAt (t : Vector3) (c : PerspectiveCamera) : PerspectiveCamera :=
  mkCamera (position c) (Some t).
Definition set_target (t : Vector3) (c : OrbitControls) : OrbitControls :=
  mkControls (object c) t (enablePan c) (enableZoom c) (autoRotate c)
             (autoRotateSpeed c) (userIsInteracting c).
Definition set_autoRotate (b : bool) (c : OrbitControls) : OrbitControls :=
  mkControls (object c) (target c) (enablePan c) (enableZoom c) b
             (autoRotateSpeed c) (userIsInteracting c).
Definition set_userIsInteracting (b : bool) (c : OrbitControls) : OrbitControls :=
  mkControls (object c) (target c) (enablePan c) (enableZoom c) (autoRotate c)
             (autoRotateSpeed c) b.
Definition set_innerText (s : string) (e : HTMLElement) : HTMLElement :=
  mkElement (className e) s (display e) (children e).
Definition set_display (s : string) (e : HTMLElement) : HTMLElement :=
  mkElement (className e) (innerText e) s (children e).
Definition appendChild (n : Node) (e : HTMLElement) : HTMLElement :=
  mkElement (className e) (innerText e) (display e) (children e ++ [n]).
(** [e.innerHTML = ''] *)
Definition clear_innerHTML (e : HTMLElement) : HTMLElement :=
  mkElement (className e) "" (display e) [].

(** [array.forEach(body)] over a snapshot of the array, threading the page. *)
Definition forEach {A} (body : A → Page → Page) (l : list A) (st : Page) : Page :=
  foldl (λ st a, body a st) st l.

Definition set_tabButtons (l : list TabButton) (d : Document) : Document :=
  mkDocument l (viewers_container d) (btn_rotate d) (btn_pause d) (console d).
Definition set_viewers_container (m : option Markup) (d : Document) : Document :=
  mkDocument (tabButtons d) m (btn_rotate d) (btn_pause d) (console d).
Definition set_btn_rotate (s : string) (d : Document) : Document :=
  mkDocument (tabButtons d) (viewers_container d) s (btn_pause d) (console d).
Definition set_btn_pause (s : string) (d : Document) : Document :=
  mkDocument (tabButtons d) (viewers_container d) (btn_rotate d) s (console d).
Definition set_console (l : list string) (d : Document) : Document :=
  mkDocument (tabButtons d) (viewers_container d) (btn_rotate d) (btn_pause d) l.
Definition set_active (b : bool) (t : TabButton) : TabButton :=
  mkTabButton (tab_button t) (data_obj t) (data_condition t) (data_gen1 t) (data_gen2 t) b.

(** ** The three.js interface

    [OrbitControls_update] stands for [controls.update()]: from the controls
    and the camera they drive it yields the camera as repositioned, the
    target as moved, and whether a ['change'] event was dispatched. *)

Record UpdateEffect := mkUpdate {
  update_camera : PerspectiveCamera;
  update_target : Vector3;
  update_change : bool }.

Class ThreeLib := {
  Vector3_subVectors : Vector3 → Vector3 → Vector3;
  Vector3_add : Vector3 → Vector3 → Vector3;
  Spherical_setFromVector3 : Vector3 → Spherical;
  Vector3_setFromSphericalCoords : number → number → number → Vector3;
  OrbitControls_update : OrbitControls → PerspectiveCamera → UpdateEffect }.

(** ** The selector engine

    [document.querySelector] answers with an element, with [null], or by
    throwing a [SyntaxError] for a selector it cannot parse. *)
Inductive Lookup := Found (element : TabButton) | Null | SyntaxError.

(** A name is plain when, pasted between the quotes of
    [[data-obj="..."]], it is a CSS string that denotes exactly that name:
    it holds no quote, no backslash, no newline, carriage return or form
    feed, and no NUL. *)
Definition special (c : Ascii.ascii) : bool :=
  bool_decide (Ascii.nat_of_ascii c ∈ [0; 10; 12; 13; 34; 92]%nat).

Fixpoint plain (name : string) : bool :=
  match name with
  | EmptyString => true
  | String c rest => negb (special c) && plain rest
  end.

(** For a name that is not plain the selector is whatever the engine makes
    of it (an escape, a longer selector, a syntax error). *)
Class SelectorEngine := {
  querySelector_special : string → list TabButton → Lookup }.

(** How a call of [loadTab] ends: it returns, or an exception leaves it
    (the script has no handler) with the page as it was at the throw. *)
Inductive Completion := Returned (st : Page) | Threw (st : Page).

(** ** Global state (lines 5-16)

    The own properties of the object literal [scaleMap]; it is read with
    [get]. *)

Definition scaleMap : gmap string number :=
  <["example_1" := 1.2%float]> (<["example_2" := 1.0%float]>
    (<["example_3" := 0.8%float]> ∅)).

(** [forEach] whose body may run out of fuel. *)
Definition forEachM {A} (body : A → Page → option Page) (l : list A) (st : Page) : option Page :=
  foldl (λ acc a, acc ≫= body a) (Some st) l.

Section Script.
Context `{ThreeLib} `{SelectorEngine}.

(** The ['change'] listener [initViewer] registers on each controls
    object (lines 102-104). *)
Definition on_change (sync : ref → Page → option Page) (controls : ref) (st : Page)
  : option Page :=
  if userIsInteracting (controls_at st controls) then sync controls st else Some st.

(** [controls.update()]: the library repositions the camera the controls
    drive, then runs the listener if it dispatched ['change']. *)
Definition update (listener : ref → Page → option Page) (controls : ref) (st : Page)
  : option Page :=
  let o := controls_at st controls in
  let eff := OrbitControls_update o (camera_at st (object o)) in
  let st := modify_camera (λ _, update_camera eff) (object o) st in
  let st := modify_controls (set_target (update_target eff)) controls st in
  if update_change eff then listener controls st else Some st.

(** The body of the [forEach] in [syncCameras] (lines 28-36). *)
Definition sync_viewer (listener : ref → Page → option Page) (sourceControls : ref)
    (spherical : Spherical) (viewer : Viewer) (st : Page) : option Page :=
  if decide (controls viewer = sourceControls) then Some st else
  let newPos :=
    Vector3_add
      (Vector3_setFromSphericalCoords (radius spherical) (phi spherical) (theta spherical))
      (target (controls_at st (controls viewer))) in
  let st := modify_camera (set_position newPos) (camera viewer) st in
  let st := modify_camera (set_lookAt (target (controls_at st (controls viewer))))
                          (camera viewer) st in
  update listener (controls viewer) st.

(** [syncCameras] (lines 19-39).  [update] can re-enter [syncCameras]
    through the ['change'] listener, so the recursion is bounded by
    [fuel]; [syncCameras_total] shows that two units always suffice. *)
Fixpoint syncCameras (fuel : nat) (sourceControls : ref) (st : Page) : option Page :=
  match fuel with
  | 0 => None
  | S fuel =>
    if isSyncing st then Some st else
    let st := set_isSyncing true st in
    let cam := camera_at st (object (controls_at st sourceControls)) in
    let target := target (controls_at st sourceControls) in
    let offset := Vector3_subVectors (position cam) target in
    let spherical := Spherical_setFromVector3 offset in
    st ← forEachM (sync_viewer (on_change (syncCameras fuel)) sourceControls spherical)
                  (allViewers st) st;
    Some (set_isSyncing false st)
  end.

(** The mouse listeners (lines 105-110): [mousedown] on one viewer's
    canvas, [mouseup] anywhere (every controls object ever created has
    its listener on the document). *)
Definition mousedown (controls : ref) (st : Page) : Page :=
  modify_controls (set_userIsInteracting true) controls st.

Definition mouseup (st : Page) : Page :=
  set_heap (set_orbits (set_userIsInteracting false <$> orbits (heap st)) (heap st)) st.

(** The success callback of [loader.load] (lines 122-141). *)
Definition shade (child : Mesh) : Mesh :=
  if isMesh child then
    mkMesh (isMesh child) true true
      (match material child with
       | Some _ => Some (mkMaterial 0.3 0.1 1.5 true)
       | None => None
       end)
  else child.

Definition load_onLoad (req : LoadRequest) (gltf_scene : Model) (st : Page) : Page :=
  let model := mkModel (setScalar (load_scale req)) (shade <$> nodes gltf_scene) in
  let st := modify_scene (λ s, mkScene (ground s) (models s ++ [model])) (load_scene req) st in
  modify_element (set_display "none") (load_loading req) st.

(** The error callback of [loader.load] (lines 143-146). *)
Definition load_onError (req : LoadRequest) (err : string) (st : Page) : Page :=
  let st := set_document
              (set_console (console (document st) ++ ["Error loading GLB: " ++ err])
                           (document st)) st in
  modify_element (set_innerText "Error loading model") (load_loading req) st.

(** [new OrbitControls(camera, domElement)] (line 96): the controls with
    the library's defaults, on which the constructor ends by running
    [update()]; no listener is registered yet, so a ['change'] it
    dispatches is heard by nobody. *)
Definition OrbitControls_defaults (camera : ref) : OrbitControls :=
  mkControls camera (mkVector3 0 0 0) true true false 2 false.

Definition OrbitControls_new (camera : ref) (c : PerspectiveCamera) : UpdateEffect :=
  OrbitControls_update (OrbitControls_defaults camera) c.

(** [initViewer] (lines 42-158).  The objects it creates take the next
    five references: scene, camera, renderer, controls, loading indicator.
    Lights, tone mapping, sizes and the [resize] listener are rendering
    configuration and leave no trace in the page state; the three other
    listeners are [on_change], [mousedown] and [mouseup] above, the two
    callbacks of the load are [load_onLoad] and [load_onError]. *)
Definition initViewer (container : ref) (glbPath : option string) (showGround : bool)
    (scale : Value) (st : Page) : Viewer * Page :=
  let scene := next (heap st) in
  let camera := S scene in
  let renderer := S camera in
  let controls := S renderer in
  let loading := S controls in
  let built := OrbitControls_new camera (mkCamera (mkVector3 0 1.5 3) None) in
  let h := heap st in
  let h := set_scenes (<[scene := mkScene showGround []]> (scenes h)) h in
  let h := set_cameras (<[camera := update_camera built]> (cameras h)) h in
  let h := set_renderers (<[renderer := mkRenderer false]> (renderers h)) h in
  let h := set_elems (modify (appendChild (Canvas renderer)) container (elems h)) h in
  let h := set_orbits
             (<[controls := mkControls camera (update_target built) false false true 2 false]>
                (orbits h)) h in
  let h := set_elems (<[loading := mkElement "loading" "Loading..." "" []]> (elems h)) h in
  let h := set_elems (modify (appendChild (Element loading)) container (elems h)) h in
  let h := set_next (S loading) h in
  let st := set_heap h st in
  let st := set_loads (loads st ++ [mkLoad glbPath scene scale loading]) st in
  (mkViewer scene camera renderer controls container, st).

(** [clearViewers] (lines 160-166). *)
Definition clearViewers (st : Page) : Page :=
  let st := forEach (λ viewer st,
              let st := modify_renderer (λ _, mkRenderer true) (renderer viewer) st in
              modify_element clear_innerHTML (container viewer) st)
            (allViewers st) st in
  set_allViewers [] st.

(** [animate] (lines 168-174), one frame. *)
Definition animate (fuel : nat) (st : Page) : option Page :=
  forEachM (λ viewer st, update (on_change (syncCameras fuel)) (controls viewer) st)
           (allViewers st) st.

(** ** Sample switching (lines 176-230) *)

(** [sampleLabels], local to [loadTab] (lines 189-193). *)
Definition sampleLabels : gmap string (list string) :=
  <["example_1" := ["« Modern chair with slatted back »";
                    "« Baby pacifier with handle »"]]>
  (<["example_2" := ["« Industrial screwdriver with cylindrical body and tapered tip »";
                     "« Ceremonial candle with pedestal base »"]]>
  (<["example_3" := ["« Wooden chess pawn, polished »";
                     "« Wooden bar stool with cushioned seat »"]]> ∅)).

(** [document.querySelector(`[data-obj="${objName}"]`)] with [name] the
    text [objName] is pasted as: for a plain name, the first element of
    the page whose [data-obj] is that name, or [null]; otherwise what the
    engine answers. *)
Definition querySelector_data_obj (name : string) (d : Document) : Lookup :=
  if plain name then
    match head (filter (λ element, data_obj element = Some name) (tabButtons d)) with
    | Some element => Found element
    | None => Null
    end
  else querySelector_special name (tabButtons d).

(** The text of [objName] in a template literal and as a property key:
    [undefined] reads ["undefined"]. *)
Definition text_of (objName : option string) : string := default "undefined" objName.

(** What [labels] can be: an array of the literal, or what
    [Object.prototype] holds under the name. *)
Inductive Labels := LabelArray (labels : list string) | LabelOther (name : string).

(** [sampleLabels[objName] || ['Sample 1', 'Sample 2']]: arrays, functions
    and objects are truthy, [undefined] is not. *)
Definition labels_for (name : string) : Labels :=
  match get sampleLabels name with
  | Own labels => LabelArray labels
  | FromPrototype inherited => LabelOther inherited
  | Undefined => LabelArray ["Sample 1"; "Sample 2"]
  end.

(** [scaleMap[objName] || 1.0] *)
Definition scale_for (name : string) : Value :=
  match get scaleMap name with
  | Own s => if truthy s then Num s else Num 1.0%float
  | FromPrototype inherited => Inherited inherited
  | Undefined => Num 1.0%float
  end.

(** [`${labels[i]}`]: a missing element prints as [undefined], and so does
    index [i] of a function or of the prototype. *)
Definition label_text (labels : Labels) (i : nat) : string :=
  match labels with
  | LabelArray l => default "undefined" (l !! i)
  | LabelOther _ => "undefined"
  end.

(** [container.innerHTML = `...`] (lines 198-222): the markup creates the
    three viewer divs anew. *)
Definition write_markup (labels : Labels) (st : Page) : Markup * Page :=
  let condition := next (heap st) in
  let gen1 := S condition in
  let gen2 := S gen1 in
  let blank := mkElement "" "" "" [] in
  let h := heap st in
  let h := set_elems (<[gen2 := blank]> (<[gen1 := blank]> (<[condition := blank]> (elems h)))) h in
  let h := set_next (S gen2) h in
  let m := mkMarkup (label_text labels 0) (label_text labels 1) condition gen1 gen2 in
  (m, set_document (set_viewers_container (Some m) (document (set_heap h st))) (set_heap h st)).

(** [btn.classList.toggle('active', btn.dataset.obj === objName)] on the
    elements of class [tab-button] (lines 184-186); [undefined] equals
    [undefined]. *)
Definition highlight (objName : option string) (btn : TabButton) : TabButton :=
  if tab_button btn then set_active (bool_decide (data_obj btn = objName)) btn else btn.

(** [loadTab(objName)]; [objName] is a string, or [undefined] ([None]) when
    the clicked tab has no [data-obj].  Reading [dataset] of [null] throws
    a [TypeError], an unparsable selector a [SyntaxError]: either way the
    call ends at line 179 or 180. *)
Definition loadTab (objName : option string) (st : Page) : Completion :=
  let st := clearViewers st in
  match querySelector_data_obj (text_of objName) (document st) with
  | Null | SyntaxError => Threw st
  | Found tabButton =>
    let conditionPath := data_condition tabButton in
    let gen1Path := data_gen1 tabButton in
    let gen2Path := data_gen2 tabButton in
    let st := set_document
                (set_tabButtons (highlight objName <$> tabButtons (document st))
                                (document st)) st in
    let labels := labels_for (text_of objName) in
    let scale := scale_for (text_of objName) in
    let '(m, st) := write_markup labels st in
    let '(conditionViewer, st) := initViewer (condition_viewer m) conditionPath false scale st in
    let '(gen1Viewer, st) := initViewer (gen1_viewer m) gen1Path true scale st in
    let '(gen2Viewer, st) := initViewer (gen2_viewer m) gen2Path true scale st in
    let st := set_allViewers [conditionViewer; gen1Viewer; gen2Viewer] st in
    let st := forEach (λ v st, modify_controls (set_autoRotate (isRotating st)) (controls v) st)
                      (allViewers st) st in
    Returned st
  end.

(** ** Click handlers (lines 232-252) *)

(** The listener of a tab (lines 233-235). *)
Definition tab_click (btn : TabButton) (st : Page) : Completion :=
  loadTab (data_obj btn) st.

Definition rotate_click (st : Page) : Page :=
  let st := set_isRotating (negb (isRotating st)) st in
  let st := forEach (λ v st, modify_controls (set_autoRotate (isRotating st)) (controls v) st)
                    (allViewers st) st in
  set_document
    (set_btn_rotate (if isRotating st then "Rotate: On" else "Rotate: Off") (document st)) st.

Definition pause_click (st : Page) : Page :=
  let st := set_isPaused (negb (isPaused st)) st in
  if isPaused st then
    let st := forEach (λ v st, modify_controls (set_autoRotate false) (controls v) st)
                      (allViewers st) st in
    set_document (set_btn_pause "Play" (document st)) st
  else
    let st := forEach (λ v st, modify_controls (set_autoRotate (isRotating st)) (controls v) st)
                      (allViewers st) st in
    set_document (set_btn_pause "Pause" (document st)) st.

(** The three controls of the page, and a session of clicks on them:
    [TabClick i] is a click on the [i]-th element of [tabButtons], which
    has a listener if it has the class [tab-button].  A click whose handler
    throws ends nothing but that handler: the page stays as the throw left
    it and later clicks are still served. *)
Inductive Click := TabClick (i : nat) | RotateClick | PauseClick.

Definition page_of (c : Completion) : Page :=
  match c with Returned st | Threw st => st end.

Definition click (c : Click) (st : Page) : Page :=
  match c with
  | TabClick i =>
      match tabButtons (document st) !! i with
      | Some btn => if tab_button btn then page_of (tab_click btn st) else st
      | None => st
      end
  | RotateClick => rotate_click st
  | PauseClick => pause_click st
  end.

Definition clicks (cs : list Click) (st : Page) : Page := foldl (λ st c, click c st) st cs.

(** The page as the script finds it: the initial values of the four
    variables (lines 6-9), nothing allocated, and the given document. *)
Definition initial (d : Document) : Page :=
  mkPage [] false true false (mkHeap ∅ ∅ ∅ ∅ ∅ 0) d [].

(** The [DOMContentLoaded] handler (lines 232-256) up to its first frame. *)
Definition DOMContentLoaded (d : Document) : Completion :=
  loadTab (Some "example_1") (initial d).
End Script.

(** ** A page to run the script on *)

(** A stand-in for three.js to run the script on concrete pages:
    component-wise vector arithmetic; the spherical record carries the
    offset's components unconverted; [update] leaves camera and target where
    they are and always dispatches ['change']. *)
Definition test_three : ThreeLib := {|
  Vector3_subVectors a b := mkVector3 (x a - x b) (y a - y b) (z a - z b);
  Vector3_add a b := mkVector3 (x a + x b) (y a + y b) (z a + z b);
  Spherical_setFromVector3 v := mkSpherical (x v) (y v) (z v);
  Vector3_setFromSphericalCoords r p t := mkVector3 r p t;
  OrbitControls_update o c := mkUpdate c (target o) true |}.

(** The same library, except that [update] turns the camera of controls
    whose [autoRotate] is set (here: moves it one unit along x), as
    [OrbitControls] does for controls that are not being dragged. *)
Definition turning_three : ThreeLib := {|
  Vector3_subVectors a b := mkVector3 (x a - x b) (y a - y b) (z a - z b);
  Vector3_add a b := mkVector3 (x a + x b) (y a + y b) (z a + z b);
  Spherical_setFromVector3 v := mkSpherical (x v) (y v) (z v);
  Vector3_setFromSphericalCoords r p t := mkVector3 r p t;
  OrbitControls_update o c :=
    mkUpdate
      (if autoRotate o
       then mkCamera (mkVector3 (x (position c) + 1) (y (position c)) (z (position c)))
                     (Some (target o))
       else mkCamera (position c) (Some (target o)))
      (target o) true |}.

(** A stand-in for the selector engine: it rejects every name that is not
    plain. *)
Definition test_engine : SelectorEngine := {|
  querySelector_special _ _ := SyntaxError |}.

(** Three samples, as [scaleMap] and [sampleLabels] expect them; a fourth
    tab that neither table knows; a tab without [data-obj]; and an element
    that carries a [data-obj] without being a tab. *)
Definition demo_document : Document :=
  mkDocument
    [ mkTabButton true (Some "example_1") (Some "a/cond.glb") (Some "a/g1.glb")
                  (Some "a/g2.glb") true;
      mkTabButton true (Some "example_2") (Some "b/cond.glb") (Some "b/g1.glb")
                  (Some "b/g2.glb") false;
      mkTabButton true (Some "example_3") (Some "c/cond.glb") (Some "c/g1.glb")
                  (Some "c/g2.glb") false;
      mkTabButton true (Some "example_9") (Some "d/cond.glb") None (Some "d/g2.glb") false;
      mkTabButton true None None None None false;
      mkTabButton false (Some "example_7") (Some "e/cond.glb") (Some "e/g1.glb")
                  (Some "e/g2.glb") false ]
    None "Rotate: On" "Pause" [].

Definition demo_page : Page :=
  page_of (DOMContentLoaded (H := test_three) (H0 := test_engine) demo_document).

(** Two of its tabs, as they stand once the page is loaded. *)
Definition demo_example_2 : TabButton :=
  mkTabButton true (Some "example_2") (Some "b/cond.glb") (Some "b/g1.glb")
              (Some "b/g2.glb") false.
Definition demo_example_9 : TabButton :=
  mkTabButton true (Some "example_9") (Some "d/cond.glb") None (Some "d/g2.glb") false.

(** The first viewer of the demonstration page, as [initViewer] returned it. *)
Definition demo_source : Viewer := mkViewer 3 4 5 6 0.

(** ** Events

    Everything that runs after [DOMContentLoaded] is one of the listeners
    the script registered: a click on one of the three controls, the mouse
    listeners, the ['change'] listener of a controls object, a frame of
    [animate], or a callback of a load. *)
Inductive Event :=
| Clicked (c : Click)
| MouseDown (controls : ref)
| MouseUp
| Changed (controls : ref)
| Frame
| Loaded (req : LoadRequest) (gltf_scene : Model)
| LoadFailed (req : LoadRequest) (err : string).

Definition handle `{ThreeLib} `{SelectorEngine} (fuel : nat) (e : Event) (st : Page)
  : option Page :=
  match e with
  | Clicked c => Some (click c st)
  | MouseDown controls => Some (mousedown controls st)
  | MouseUp => Some (mouseup st)
  | Changed controls => on_change (syncCameras fuel) controls st
  | Frame => animate fuel st
  | Loaded req gltf_scene => Some (load_onLoad req gltf_scene st)
  | LoadFailed req err => Some (load_onError req err st)
  end.

Definition session `{ThreeLib} `{SelectorEngine} (fuel : nat) (es : list Event) (st : Page)
  : option Page :=
  foldl (λ acc e, acc ≫= handle fuel e) (Some st) es.

(** ** Notions used in the statements *)

Section Notions.
Context `{ThreeLib}.

(** What [controls.update()] does when its ['change'] listener has
    nothing to do. *)
Definition update_silent (controls : ref) (st : Page) : Page :=
  let o := controls_at st controls in
  let eff := OrbitControls_update o (camera_at st (object o)) in
  modify_controls (set_target (update_target eff)) controls
    (modify_camera (λ _, update_camera eff) (object o) st).

(** The body of the loop of [syncCameras] with such an [update]. *)
Definition sync_viewer_silent (sourceControls : ref) (spherical : Spherical)
    (viewer : Viewer) (st : Page) : Page :=
  if decide (controls viewer = sourceControls) then st else
  let newPos :=
    Vector3_add
      (Vector3_setFromSphericalCoords (radius spherical) (phi spherical) (theta spherical))
      (target (controls_at st (controls viewer))) in
  let st := modify_camera (set_position newPos) (camera viewer) st in
  let st := modify_camera (set_lookAt (target (controls_at st (controls viewer))))
                          (camera viewer) st in
  update_silent (controls viewer) st.

(** The spherical offset [syncCameras] reads off the source. *)
Definition source_spherical (sourceControls : ref) (st : Page) : Spherical :=
  let o := controls_at st sourceControls in
  Spherical_setFromVector3 (Vector3_subVectors (position (camera_at st (object o))) (target o)).
End Notions.

Section Handover.
Context `{ThreeLib}.

(** What the pass hands to [update] for a viewer it does not skip: the
    camera moved to the source's spherical offset about the viewer's own
    target and turned towards that target. *)
Definition handed_over (spherical : Spherical) (viewer : Viewer) (st : Page) : UpdateEffect :=
  let o := controls_at st (controls viewer) in
  OrbitControls_update o
    (mkCamera
       (Vector3_add
          (Vector3_setFromSphericalCoords (radius spherical) (phi spherical) (theta spherical))
          (target o))
       (Some (target o))).
End Handover.

(** The viewers of the group other than the one [sourceControls] belongs to. *)
Definition others (sourceControls : ref) (st : Page) : list Viewer :=
  filter (λ v, controls v ≠ sourceControls) (allViewers st).

(** The shape [initViewer] gives a group: no two viewers share a camera or
    a controls object, and each viewer's controls drive that viewer's
    camera. *)
Definition well_formed (st : Page) : Prop :=
  NoDup (camera <$> allViewers st) ∧
  NoDup (controls <$> allViewers st) ∧
  Forall (λ v, object (controls_at st (controls v)) = camera v) (allViewers st).


(** Every viewer of the group has its auto-rotate flag at [b]. *)
Definition all_autoRotate (b : bool) (st : Page) : Prop :=
  Forall (λ v, autoRotate (controls_at st (controls v)) = b) (allViewers st).

(** The page without its cameras and controls: the four variables' other
    three, the group, the renderers, scenes and elements, the document and
    the loads. *)
Definition rest_of_page (st : Page) : Page :=
  set_heap (set_orbits ∅ (set_cameras ∅ (heap st))) st.

(** [st'] is [st] up to the cameras in [C] and the controls in [K], and of
    a controls object at most the target differs. *)
Record moves_only (C K : ref → Prop) (st st' : Page) : Prop := mkMoves {
  moves_rest : rest_of_page st' = rest_of_page st;
  moves_cameras : ∀ r, ¬ C r → cameras (heap st') !! r = cameras (heap st) !! r;
  moves_controls : ∀ r, ¬ K r → orbits (heap st') !! r = orbits (heap st) !! r;
  moves_targets : ∀ r,
    controls_at st' r = set_target (target (controls_at st' r)) (controls_at st r) }.

(** The loop [allViewers.forEach(v => v.controls.autoRotate = b)] of the
    rotate and pause handlers and of [loadTab], for a fixed [b]. *)
Definition assign_autoRotate (b : bool) (l : list Viewer) (st : Page) : Page :=
  forEach (λ v st, modify_controls (set_autoRotate b) (controls v) st) l st.

(** C4 as the specification words it: from the moment pause is switched
    on, and through any number of clicks on the rotate toggle, pause stays
    on and every viewer's auto-rotate flag stays off. *)
Definition pause_overrides_rotate_clicks : Prop :=
  ∀ (three : ThreeLib) (engine : SelectorEngine) (st : Page) (n : nat), isPaused st = false →
    isPaused (clicks (PauseClick :: replicate n RotateClick) st) = true ∧
    all_autoRotate false (clicks (PauseClick :: replicate n RotateClick) st).

(** C6 as the specification words it: every sample switch ends with a
    group of exactly three viewers; a sample switch is what the click
    listener of a tab runs. *)
Definition every_switch_yields_three : Prop :=
  ∀ (three : ThreeLib) (engine : SelectorEngine) (st : Page) (btn : TabButton),
    btn ∈ tabButtons (document st) → tab_button btn = true →
    ∃ st', tab_click btn st = Returned st' ∧ length (allViewers st') = 3.

(** C8 as the specification words it, for the captions: a sample name
    that neither literal knows gets the default captions rather than a
    failure. *)
Definition unknown_sample_falls_back : Prop :=
  ∀ (three : ThreeLib) (engine : SelectorEngine) (objName : string) (st : Page),
    scaleMap !! objName = None → sampleLabels !! objName = None →
    ∃ st' m, loadTab (Some objName) st = Returned st' ∧
      viewers_container (document st') = Some m ∧
      [caption1 m; caption2 m] = ["Sample 1"; "Sample 2"].

(** The group [loadTab] assembles and the loads it issues when the heap's
    next free reference is [n]: three references go to the viewer divs of
    the markup, then five to each call of [initViewer]. *)
Definition new_group (n : ref) : list Viewer :=
  [ mkViewer (3 + n) (4 + n) (5 + n) (6 + n) n;
    mkViewer (8 + n) (9 + n) (10 + n) (11 + n) (1 + n);
    mkViewer (13 + n) (14 + n) (15 + n) (16 + n) (2 + n) ].

Definition new_loads (tabButton : TabButton) (scale : Value) (n : ref) : list LoadRequest :=
  [ mkLoad (data_condition tabButton) (3 + n) scale (7 + n);
    mkLoad (data_gen1 tabButton) (8 + n) scale (12 + n);
    mkLoad (data_gen2 tabButton) (13 + n) scale (17 + n) ].

(** Every reference held by a viewer of the group has been allocated. *)
Definition allocated (st : Page) : Prop :=
  Forall (λ v, camera v < next (heap st) ∧ renderer v < next (heap st) ∧
               controls v < next (heap st))
         (allViewers st).

(** What holds of the page between any two events. *)
Definition at_rest (st : Page) : Prop :=
  isSyncing st = false ∧ well_formed st ∧ allocated st.

(** ** Notions used in the further properties *)

(** The second viewer of the demonstration page, and a page whose group is
    the first viewer alone. *)
Definition demo_second : Viewer := mkViewer 8 9 10 11 1.
Definition demo_lone_page : Page := set_allViewers [demo_source] demo_page.

(** No viewer of the group is being dragged. *)
Definition idle (st : Page) : Prop :=
  Forall (λ v, userIsInteracting (controls_at st (controls v)) = false) (allViewers st).

(** The group is empty, or it is the three viewers of one sample switch. *)
Definition group_shape (st : Page) : Prop :=
  allViewers st = [] ∨ ∃ n, allViewers st = new_group n ∧ (18 + n ≤ next (heap st))%nat.

(** Every load issued so far closes over objects that have been allocated. *)
Definition loads_allocated (st : Page) : Prop :=
  Forall (λ req, (load_scene req < next (heap st))%nat ∧
                 (load_loading req < next (heap st))%nat)
         (loads st).

(** The viewers' auto-rotate flags follow the stored rotate flag, unless
    pause is on and holds them all off. *)
Definition flags_follow (st : Page) : Prop :=
  all_autoRotate (isRotating st) st ∨ (isPaused st = true ∧ all_autoRotate false st).

(** The three together. *)
Definition settled (st : Page) : Prop :=
  group_shape st ∧ loads_allocated st ∧ flags_follow st.

(** A step that leaves the group, the stored flags, the loads, the
    allocation mark and every auto-rotate flag alone. *)
Definition quiet_step (st st' : Page) : Prop :=
  allViewers st' = allViewers st ∧ isRotating st' = isRotating st ∧
  isPaused st' = isPaused st ∧ loads st' = loads st ∧
  next (heap st') = next (heap st) ∧
  ∀ r, autoRotate (controls_at st' r) = autoRotate (controls_at st r).

(** The events that are not a click on one of the three controls. *)
Definition not_a_click (e : Event) : Prop :=
  match e with Clicked _ => False | _ => True end.

(** The material [load_onLoad] gives every mesh that has one. *)
Definition plastic : Material := mkMaterial 0.3 0.1 1.5 true.

(** * Properties *)

Local Open Scope list_scope.

(** ** Reading the heap after a mutation *)

Section Modify.
Context {A : Type} `{Inhabited A}.
Implicit Types (m : gmap ref A) (f : A → A) (r : ref).

Lemma modify_total_eq f r m : modify f r m !!! r = f (m !!! r).
Proof. unfold modify. by rewrite lookup_total_insert_eq. Qed.

Lemma modify_total_ne f r r' m : r ≠ r' → modify f r m !!! r' = m !!! r'.
Proof. intros. unfold modify. by rewrite lookup_total_insert_ne. Qed.

Lemma modify_lookup_ne f r r' m : r ≠ r' → modify f r m !! r' = m !! r'.
Proof. intros. unfold modify. by rewrite lookup_insert_ne. Qed.

(** A field that [f] keeps is kept at every reference. *)
Lemma modify_total_field {B} (g : A → B) f r r' m :
  (∀ a, g (f a) = g a) → g (modify f r m !!! r') = g (m !!! r').
Proof.
  intros Hg. destruct (decide (r = r')) as [->|Hne].
  - by rewrite modify_total_eq.
  - by rewrite modify_total_ne.
Qed.
End Modify.

(** ** [forEach] *)

Lemma forEach_nil {A} (body : A → Page → Page) st : forEach body [] st = st.
Proof. reflexivity. Qed.

Lemma forEach_cons {A} (body : A → Page → Page) a l st :
  forEach body (a :: l) st = forEach body l (body a st).
Proof. reflexivity. Qed.

(** An invariant of the body is an invariant of the loop. *)
Lemma forEach_invariant {A} (P : Page → Prop) (body : A → Page → Page) l st :
  (∀ a st, a ∈ l → P st → P (body a st)) → P st → P (forEach body l st).
Proof.
  revert st. induction l as [|a l IH]; intros st Hbody HP; [done|].
  rewrite forEach_cons. apply IH.
  - intros b st' Hb. apply Hbody. by right.
  - apply Hbody; [by left | done].
Qed.

(** A loop whose body never runs dry is a plain [forEach]. *)
Lemma forEachM_pure {A} (P : Page → Prop) (bodyM : A → Page → option Page)
    (body : A → Page → Page) l st :
  (∀ a st, P st → bodyM a st = Some (body a st) ∧ P (body a st)) →
  P st → forEachM bodyM l st = Some (forEach body l st).
Proof.
  unfold forEachM, forEach. revert st.
  induction l as [|a l IH]; intros st Hbody HP; [done|].
  simpl. destruct (Hbody a st HP) as [-> HP']. simpl. by apply IH.
Qed.

(** ** Projections through the heap mutations *)

Lemma controls_at_modify_camera f r st c :
  controls_at (modify_camera f r st) c = controls_at st c.
Proof. reflexivity. Qed.

Lemma camera_at_modify_controls f r st c :
  camera_at (modify_controls f r st) c = camera_at st c.
Proof. reflexivity. Qed.

Lemma controls_at_modify_eq f r st :
  controls_at (modify_controls f r st) r = f (controls_at st r).
Proof. unfold controls_at, modify_controls. simpl. apply modify_total_eq. Qed.

Lemma controls_at_modify_ne f r r' st :
  r ≠ r' → controls_at (modify_controls f r st) r' = controls_at st r'.
Proof. intros. unfold controls_at, modify_controls. simpl. by apply modify_total_ne. Qed.

Lemma camera_at_modify_eq f r st :
  camera_at (modify_camera f r st) r = f (camera_at st r).
Proof. unfold camera_at, modify_camera. simpl. apply modify_total_eq. Qed.

Lemma camera_at_modify_ne f r r' st :
  r ≠ r' → camera_at (modify_camera f r st) r' = camera_at st r'.
Proof. intros. unfold camera_at, modify_camera. simpl. by apply modify_total_ne. Qed.

Lemma object_modify_controls f r st c :
  (∀ o, object (f o) = object o) →
  object (controls_at (modify_controls f r st) c) = object (controls_at st c).
Proof.
  intros Hf. unfold controls_at, modify_controls. simpl.
  by apply (modify_total_field object).
Qed.

(** ** The synchronization pass *)

Section Sync.
Context `{ThreeLib}.

(** Inside a pass the listener finds the flag set and does nothing. *)
Lemma on_change_in_pass fuel c st :
  isSyncing st = true → on_change (syncCameras (S fuel)) c st = Some st.
Proof.
  intros Hs. unfold on_change. destruct (userIsInteracting _); [|done].
  simpl. by rewrite Hs.
Qed.

Lemma update_in_pass fuel c st :
  isSyncing st = true →
  update (on_change (syncCameras (S fuel))) c st = Some (update_silent c st).
Proof.
  intros Hs. unfold update, update_silent.
  destruct (update_change _); [|done].
  by apply on_change_in_pass.
Qed.

Lemma isSyncing_update_silent c st : isSyncing (update_silent c st) = isSyncing st.
Proof. reflexivity. Qed.

Lemma isSyncing_sync_viewer_silent src sph v st :
  isSyncing (sync_viewer_silent src sph v st) = isSyncing st.
Proof. unfold sync_viewer_silent. by destruct (decide _). Qed.

Lemma sync_viewer_in_pass fuel src sph v st :
  isSyncing st = true →
  sync_viewer (on_change (syncCameras (S fuel))) src sph v st
    = Some (sync_viewer_silent src sph v st).
Proof.
  intros Hs. unfold sync_viewer, sync_viewer_silent.
  destruct (decide _); [done|]. by apply update_in_pass.
Qed.

(** With two units of fuel a pass always completes, and it is this page:
    the flag raised, the loop run with silent listeners, the flag
    lowered. *)
Lemma syncCameras_total fuel src st :
  isSyncing st = false →
  syncCameras (S (S fuel)) src st
    = Some (set_isSyncing false
              (forEach (sync_viewer_silent src (source_spherical src st))
                       (allViewers st) (set_isSyncing true st))).
Proof.
  intros Hs. cbn [syncCameras]. rewrite Hs.
  rewrite (forEachM_pure (λ st, isSyncing st = true) _
             (sync_viewer_silent src (source_spherical src st))); [done| |done].
  intros v st' Hst'. split.
  - by apply sync_viewer_in_pass.
  - by rewrite isSyncing_sync_viewer_silent.
Qed.
End Sync.

(** ** What a pass can touch *)

Lemma set_target_set_target t t' o : set_target t (set_target t' o) = set_target t o.
Proof. reflexivity. Qed.

Lemma set_target_id o : set_target (target o) o = o.
Proof. by destruct o. Qed.

Lemma moves_only_refl C K st : moves_only C K st st.
Proof. split; try done. intros r. by rewrite set_target_id. Qed.

Lemma moves_only_trans C K st1 st2 st3 :
  moves_only C K st1 st2 → moves_only C K st2 st3 → moves_only C K st1 st3.
Proof.
  intros [R1 C1 K1 T1] [R2 C2 K2 T2]. split.
  - by rewrite R2.
  - intros r Hr. by rewrite C2, C1.
  - intros r Hr. by rewrite K2, K1.
  - intros r. rewrite T2, T1. reflexivity.
Qed.

Lemma moves_only_weaken (C K C' K' : ref → Prop) st st' :
  (∀ r, C r → C' r) → (∀ r, K r → K' r) →
  moves_only C K st st' → moves_only C' K' st st'.
Proof. intros HC HK [R1 C1 K1 T1]. split; naive_solver. Qed.

Lemma moves_only_isSyncing C K st st' b :
  moves_only C K st st' → moves_only C K (set_isSyncing b st) (set_isSyncing b st').
Proof.
  intros [R1 C1 K1 T1]. split; try done.
  unfold rest_of_page, set_heap, set_isSyncing in *. simpl in *. congruence.
Qed.

Lemma moves_only_object C K st st' r :
  moves_only C K st st' → object (controls_at st' r) = object (controls_at st r).
Proof. intros [_ _ _ T]. by rewrite T. Qed.

Lemma modify_camera_moves f c st : moves_only (λ r, r = c) (λ _, False) st (modify_camera f c st).
Proof.
  split; try done.
  - intros r Hr. unfold modify_camera. simpl. apply modify_lookup_ne. congruence.
  - intros r. rewrite controls_at_modify_camera. by rewrite set_target_id.
Qed.

Lemma retarget_moves t k st :
  moves_only (λ _, False) (λ r, r = k) st (modify_controls (set_target t) k st).
Proof.
  split; try done.
  - intros r Hr. unfold modify_controls. simpl. apply modify_lookup_ne. congruence.
  - intros r. destruct (decide (k = r)) as [->|Hne].
    + by rewrite controls_at_modify_eq.
    + rewrite controls_at_modify_ne by done. by rewrite set_target_id.
Qed.

Section Frame.
Context `{ThreeLib}.

Lemma update_silent_moves k st :
  moves_only (λ r, r = object (controls_at st k)) (λ r, r = k) st (update_silent k st).
Proof.
  unfold update_silent.
  eapply moves_only_trans.
  - eapply moves_only_weaken; [| |apply modify_camera_moves]; naive_solver.
  - eapply moves_only_weaken; [| |apply retarget_moves]; naive_solver.
Qed.

Lemma sync_viewer_silent_moves src sph v st :
  moves_only
    (λ r, controls v ≠ src ∧ (r = camera v ∨ r = object (controls_at st (controls v))))
    (λ r, controls v ≠ src ∧ r = controls v)
    st (sync_viewer_silent src sph v st).
Proof.
  unfold sync_viewer_silent. destruct (decide _) as [|Hne]; [apply moves_only_refl|].
  cbv zeta.
  set (st1 := modify_camera (set_position _) (camera v) st).
  set (st2 := modify_camera (set_lookAt _) (camera v) st1).
  apply (moves_only_trans _ _ st st1); [|apply (moves_only_trans _ _ st1 st2)].
  - eapply moves_only_weaken; [| |apply modify_camera_moves]; naive_solver.
  - eapply moves_only_weaken; [| |apply modify_camera_moves]; naive_solver.
  - eapply moves_only_weaken; [| |apply (update_silent_moves (controls v) st2)];
      [|naive_solver].
    intros r ->. split; [done|]. by right.
Qed.

(** The loop touches the cameras and controls of the viewers it does not
    skip, nothing else. *)
Lemma sync_loop_moves src sph l st0 st :
  (∀ r, object (controls_at st r) = object (controls_at st0 r)) →
  moves_only
    (λ r, ∃ v, v ∈ l ∧ controls v ≠ src ∧
               (r = camera v ∨ r = object (controls_at st0 (controls v))))
    (λ r, ∃ v, v ∈ l ∧ controls v ≠ src ∧ r = controls v)
    st (forEach (sync_viewer_silent src sph) l st).
Proof.
  revert st. induction l as [|v l IH]; intros st Hobj; [apply moves_only_refl|].
  rewrite forEach_cons.
  pose proof (sync_viewer_silent_moves src sph v st) as Hv.
  eapply moves_only_trans.
  - eapply moves_only_weaken; [| |exact Hv].
    + intros r [Hne Hr]. exists v. rewrite <- Hobj. split; [by left|done].
    + intros r [Hne Hr]. exists v. split; [by left|done].
  - eapply moves_only_weaken; [| |apply IH].
    + intros r (w & Hw & Hr). exists w. split; [by right|done].
    + intros r (w & Hw & Hr). exists w. split; [by right|done].
    + intros r. rewrite <- Hobj. by eapply moves_only_object.
Qed.
End Frame.

Lemma NoDup_fmap_elem_inj {A B} (f : A → B) (l : list A) a b :
  NoDup (f <$> l) → a ∈ l → b ∈ l → f a = f b → a = b.
Proof.
  induction l as [|c l IH]; intros Hnd Ha Hb Hf; [by apply elem_of_nil in Ha|].
  rewrite fmap_cons in Hnd. apply NoDup_cons in Hnd as [Hc Hnd].
  apply elem_of_cons in Ha as [->|Ha]; apply elem_of_cons in Hb as [->|Hb]; try done.
  - exfalso. apply Hc. rewrite Hf. by apply list_elem_of_fmap_2.
  - exfalso. apply Hc. rewrite <- Hf. by apply list_elem_of_fmap_2.
  - by apply IH.
Qed.

Lemma lower_raised_flag st :
  isSyncing st = false → set_isSyncing false (set_isSyncing true st) = st.
Proof. destruct st. simpl. by intros ->. Qed.

Lemma elem_of_others v src st :
  v ∈ others src st ↔ v ∈ allViewers st ∧ controls v ≠ src.
Proof. unfold others. rewrite list_elem_of_filter. tauto. Qed.

Section Claims_sync.
Context `{ThreeLib}.

(** C2.  A call of [syncCameras] that finds [isSyncing] set returns at
    once with the page exactly as it was: no camera, target or controls
    field of any viewer has changed. *)
Theorem syncCameras_reentrant_noop (fuel : nat) (sourceControls : ref) (st : Page) :
  isSyncing st = true → syncCameras (S fuel) sourceControls st = Some st.
Proof. intros Hs. simpl. by rewrite Hs. Qed.

(** C10.  A call of [syncCameras] that finds [isSyncing] clear returns,
    and the page it returns has [isSyncing] clear again. *)
Theorem syncCameras_lowers_flag (fuel : nat) (sourceControls : ref) (st : Page) :
  isSyncing st = false →
  ∃ st', syncCameras (S (S fuel)) sourceControls st = Some st' ∧ isSyncing st' = false.
Proof.
  intros Hs. cbn [syncCameras]. rewrite Hs.
  rewrite (forEachM_pure (λ st, isSyncing st = true) _
             (sync_viewer_silent sourceControls (source_spherical sourceControls st))).
  - eexists. split; reflexivity.
  - intros v st' Hst'. split.
    + by apply sync_viewer_in_pass.
    + by rewrite isSyncing_sync_viewer_silent.
  - reflexivity.
Qed.

(** The effect of a whole call, whatever the flag. *)
Lemma syncCameras_moves fuel src st :
  ∃ st', syncCameras (S (S fuel)) src st = Some st' ∧
    moves_only
      (λ r, ∃ v, v ∈ allViewers st ∧ controls v ≠ src ∧
                 (r = camera v ∨ r = object (controls_at st (controls v))))
      (λ r, ∃ v, v ∈ allViewers st ∧ controls v ≠ src ∧ r = controls v)
      st st'.
Proof.
  destruct (isSyncing st) eqn:Hs.
  - exists st. split; [simpl; by rewrite Hs|apply moves_only_refl].
  - eexists. split; [by apply syncCameras_total|].
    pose proof (sync_loop_moves src (source_spherical src st) (allViewers st)
                  (set_isSyncing true st) (set_isSyncing true st)
                  (λ _, eq_refl)) as Hloop.
    apply (moves_only_isSyncing _ _ _ _ false) in Hloop.
    by rewrite (lower_raised_flag st Hs) in Hloop.
Qed.

(** C3.  In a group as [initViewer] builds it, a call
    [syncCameras(source.controls)] for a viewer [source] of the group
    returns a page in which the source's camera (position included) and
    the source's controls (target included) are what they were; the page
    differs from the old one at most in the cameras and controls of the
    other viewers of the group. *)
Theorem syncCameras_spares_source (fuel : nat) (source : Viewer) (st : Page) :
  well_formed st → source ∈ allViewers st →
  ∃ st', syncCameras (S (S fuel)) (controls source) st = Some st' ∧
    position (camera_at st' (camera source)) = position (camera_at st (camera source)) ∧
    target (controls_at st' (controls source)) = target (controls_at st (controls source)) ∧
    camera_at st' (camera source) = camera_at st (camera source) ∧
    controls_at st' (controls source) = controls_at st (controls source) ∧
    moves_only (λ r, r ∈ camera <$> others (controls source) st)
               (λ r, r ∈ controls <$> others (controls source) st) st st'.
Proof.
  intros (Hcams & Hctls & Hobj) Hsrc.
  destruct (syncCameras_moves fuel (controls source) st) as (st' & Hrun & Hmoves).
  assert (Hmoves' : moves_only (λ r, r ∈ camera <$> others (controls source) st)
                      (λ r, r ∈ controls <$> others (controls source) st) st st').
  { eapply moves_only_weaken; [| |exact Hmoves].
    - intros r (v & Hv & Hne & Hr).
      assert (r = camera v) as ->.
      { destruct Hr as [->| ->]; [done|].
        rewrite Forall_forall in Hobj. by apply Hobj. }
      apply list_elem_of_fmap_2. by apply elem_of_others.
    - intros r (v & Hv & Hne & ->).
      apply list_elem_of_fmap_2. by apply elem_of_others. }
  assert (Hcam : camera_at st' (camera source) = camera_at st (camera source)).
  { unfold camera_at. rewrite !lookup_total_alt.
    rewrite (moves_cameras _ _ _ _ Hmoves'); [done|].
    intros (v & Heq & Hv)%list_elem_of_fmap.
    apply elem_of_others in Hv as [Hv Hne]. apply Hne. f_equal.
    symmetry. by apply (NoDup_fmap_elem_inj camera (allViewers st)). }
  assert (Hctl : controls_at st' (controls source) = controls_at st (controls source)).
  { unfold controls_at. rewrite !lookup_total_alt.
    rewrite (moves_controls _ _ _ _ Hmoves'); [done|].
    intros (v & Heq & Hv)%list_elem_of_fmap.
    apply elem_of_others in Hv as [Hv Hne]. by apply Hne. }
  exists st'. rewrite Hcam, Hctl. done.
Qed.
End Claims_sync.

(** *** The pass on the demonstration page *)

Lemma demo_page_well_formed : well_formed demo_page.
Proof.
  repeat split.
  - vm_compute. apply (bool_decide_unpack _). vm_compute. reflexivity.
  - vm_compute. apply (bool_decide_unpack _). vm_compute. reflexivity.
  - apply (bool_decide_unpack _). vm_compute. reflexivity.
Qed.

Lemma syncCameras_reentrant_noop_witness :
  isSyncing (set_isSyncing true demo_page) = true ∧
  syncCameras (H := test_three) 1 6 (set_isSyncing true demo_page)
    = Some (set_isSyncing true demo_page).
Proof.
  split; [reflexivity|].
  apply (syncCameras_reentrant_noop (H := test_three) 0 6). reflexivity.
Defined.

Lemma syncCameras_lowers_flag_witness :
  isSyncing (mousedown 6 demo_page) = false ∧
  ∃ st', syncCameras (H := test_three) 2 6 (mousedown 6 demo_page) = Some st' ∧
         isSyncing st' = false.
Proof.
  split; [vm_compute; reflexivity|].
  apply (syncCameras_lowers_flag (H := test_three) 0 6). vm_compute. reflexivity.
Defined.

Lemma syncCameras_spares_source_witness :
  well_formed demo_page ∧ demo_source ∈ allViewers demo_page ∧
  ∃ st', syncCameras (H := test_three) 2 6 demo_page = Some st' ∧
    position (camera_at st' 4) = position (camera_at demo_page 4) ∧
    target (controls_at st' 6) = target (controls_at demo_page 6) ∧
    camera_at st' 4 = camera_at demo_page 4 ∧
    controls_at st' 6 = controls_at demo_page 6 ∧
    moves_only (λ r, r ∈ camera <$> others 6 demo_page)
               (λ r, r ∈ controls <$> others 6 demo_page) demo_page st'.
Proof.
  split; [exact demo_page_well_formed|].
  split; [vm_compute; apply list_elem_of_here|].
  apply (syncCameras_spares_source (H := test_three) 0 demo_source).
  - exact demo_page_well_formed.
  - vm_compute. apply list_elem_of_here.
Defined.

(** ** The rotate and pause toggles *)

Lemma forEach_ext_invariant {A} (P : Page → Prop) (body body' : A → Page → Page) l st :
  (∀ a st, P st → body a st = body' a st ∧ P (body' a st)) →
  P st → forEach body l st = forEach body' l st.
Proof.
  revert st. induction l as [|a l IH]; intros st Hbody HP; [done|].
  rewrite !forEach_cons. destruct (Hbody a st HP) as [-> HP']. by apply IH.
Qed.

(** The loop rewrites the controls map and nothing else; in the new map the
    controls of the listed viewers have the flag at [b] and are otherwise
    as before. *)
Lemma assign_autoRotate_spec b l st :
  ∃ m, assign_autoRotate b l st = set_heap (set_orbits m (heap st)) st ∧
       ∀ r, m !!! r = if bool_decide (r ∈ controls <$> l)
                      then set_autoRotate b (orbits (heap st) !!! r)
                      else orbits (heap st) !!! r.
Proof.
  unfold assign_autoRotate. revert st. induction l as [|v l IH]; intros st.
  - exists (orbits (heap st)). split; [by destruct st as [? ? ? ? [] ? ?]|].
    intros r. rewrite bool_decide_eq_false_2; [done|]. apply not_elem_of_nil.
  - rewrite forEach_cons.
    destruct (IH (modify_controls (set_autoRotate b) (controls v) st)) as (m & -> & Hm).
    exists m. split; [done|]. intros r. rewrite Hm. simpl.
    destruct (decide (controls v = r)) as [<-|Hne].
    + rewrite modify_total_eq.
      rewrite (bool_decide_eq_true_2 (controls v ∈ controls v :: _)) by left.
      by case_bool_decide.
    + rewrite modify_total_ne by done.
      do 2 case_bool_decide; try done.
      * exfalso. apply H0. by right.
      * exfalso. apply elem_of_cons in H0 as [?|?]; [congruence|done].
Qed.

Lemma assign_autoRotate_all b st : all_autoRotate b (assign_autoRotate b (allViewers st) st).
Proof.
  destruct (assign_autoRotate_spec b (allViewers st) st) as (m & -> & Hm).
  unfold all_autoRotate, controls_at. simpl. apply Forall_forall. intros v Hv.
  rewrite Hm. rewrite bool_decide_eq_true_2; [done|]. by apply list_elem_of_fmap_2.
Qed.

(** The handlers read [isRotating] inside the loop; the loop does not
    change it, so the value assigned is the one read on entry. *)
Lemma assign_isRotating_loop l st :
  forEach (λ v st, modify_controls (set_autoRotate (isRotating st)) (controls v) st) l st
    = assign_autoRotate (isRotating st) l st.
Proof.
  unfold assign_autoRotate.
  apply (forEach_ext_invariant (λ st', isRotating st' = isRotating st)); [|done].
  intros v st' Hst'. by rewrite Hst'.
Qed.

Lemma assign_autoRotate_object b (l : list Viewer) st (m : gmap ref OrbitControls) :
  (∀ r, m !!! r = if bool_decide (r ∈ controls <$> l)
                  then set_autoRotate b (orbits (heap st) !!! r)
                  else orbits (heap st) !!! r) →
  ∀ r, object (m !!! r) = object (orbits (heap st) !!! r).
Proof. intros Hm r. rewrite Hm. by case_bool_decide. Qed.

Lemma rotate_click_spec st :
  ∃ m d, rotate_click st
         = set_document d (set_heap (set_orbits m (heap st))
                                    (set_isRotating (negb (isRotating st)) st)) ∧
         (∀ r, object (m !!! r) = object (orbits (heap st) !!! r)) ∧
         all_autoRotate (negb (isRotating st)) (rotate_click st).
Proof.
  unfold rotate_click. cbv zeta. rewrite assign_isRotating_loop. simpl.
  pose proof (assign_autoRotate_all (negb (isRotating st))
                (set_isRotating (negb (isRotating st)) st)) as Hall.
  destruct (assign_autoRotate_spec (negb (isRotating st)) (allViewers st)
              (set_isRotating (negb (isRotating st)) st)) as (m & Hm & Hlook).
  pose proof (assign_autoRotate_object _ _ _ _ Hlook) as Hobj.
  simpl in Hall. rewrite Hm in *. eexists m, _.
  split; [reflexivity|]. split; [exact Hobj|exact Hall].
Qed.

Lemma pause_click_spec st :
  ∃ m d, pause_click st
         = set_document d (set_heap (set_orbits m (heap st))
                                    (set_isPaused (negb (isPaused st)) st)) ∧
         (∀ r, object (m !!! r) = object (orbits (heap st) !!! r)) ∧
         all_autoRotate (if isPaused st then isRotating st else false) (pause_click st).
Proof.
  unfold pause_click. cbv zeta. simpl (isPaused (set_isPaused _ _)).
  destruct (isPaused st) eqn:Hp; simpl negb; cbv iota.
  - rewrite assign_isRotating_loop. simpl.
    pose proof (assign_autoRotate_all (isRotating st) (set_isPaused false st)) as Hall.
    destruct (assign_autoRotate_spec (isRotating st) (allViewers st)
                (set_isPaused false st)) as (m & Hm & Hlook).
    pose proof (assign_autoRotate_object _ _ _ _ Hlook) as Hobj.
    simpl in Hall. rewrite Hm in *. eexists m, _.
    split; [reflexivity|]. split; [exact Hobj|exact Hall].
  - pose proof (assign_autoRotate_all false (set_isPaused true st)) as Hall.
    destruct (assign_autoRotate_spec false (allViewers st)
                (set_isPaused true st)) as (m & Hm & Hlook).
    pose proof (assign_autoRotate_object _ _ _ _ Hlook) as Hobj.
    simpl in Hall. change (allViewers (set_isPaused true st)) with (allViewers st).
    fold (assign_autoRotate false (allViewers st) (set_isPaused true st)).
    rewrite Hm in *. eexists m, _.
    split; [reflexivity|]. split; [exact Hobj|exact Hall].
Qed.

Lemma rotate_click_variables st :
  isRotating (rotate_click st) = negb (isRotating st) ∧
  isPaused (rotate_click st) = isPaused st ∧
  isSyncing (rotate_click st) = isSyncing st ∧
  allViewers (rotate_click st) = allViewers st.
Proof. by destruct (rotate_click_spec st) as (m & d & -> & _ & _). Qed.

Lemma pause_click_variables st :
  isPaused (pause_click st) = negb (isPaused st) ∧
  isRotating (pause_click st) = isRotating st ∧
  isSyncing (pause_click st) = isSyncing st ∧
  allViewers (pause_click st) = allViewers st.
Proof. by destruct (pause_click_spec st) as (m & d & -> & _ & _). Qed.

Section Toggles.
Context `{ThreeLib} `{SelectorEngine}.

(** C5.  From a page that is not paused, pause on then pause off leaves
    pause off, the stored rotate flag as it was and every viewer's
    auto-rotate flag equal to it.  With a click on the rotate toggle in
    between, the stored flag ends flipped and every viewer's flag equals
    the flipped value: from rotate OFF, the viewers end up rotating. *)
Theorem pause_on_off_restores (st : Page) :
  isPaused st = false →
  (isPaused (clicks [PauseClick; PauseClick] st) = false ∧
   isRotating (clicks [PauseClick; PauseClick] st) = isRotating st ∧
   all_autoRotate (isRotating st) (clicks [PauseClick; PauseClick] st)) ∧
  (isPaused (clicks [PauseClick; RotateClick; PauseClick] st) = false ∧
   isRotating (clicks [PauseClick; RotateClick; PauseClick] st) = negb (isRotating st) ∧
   all_autoRotate (negb (isRotating st)) (clicks [PauseClick; RotateClick; PauseClick] st)).
Proof.
  intros Hp.
  destruct (pause_click_variables st) as (Hp1 & Hr1 & _).
  rewrite Hp in Hp1. cbn [negb] in Hp1.
  split.
  - change (clicks [PauseClick; PauseClick] st) with (pause_click (pause_click st)).
    destruct (pause_click_variables (pause_click st)) as (Hp2 & Hr2 & _).
    destruct (pause_click_spec (pause_click st)) as (_ & _ & _ & _ & Hall).
    rewrite Hp1 in Hp2, Hall. rewrite Hr1 in Hr2, Hall. done.
  - change (clicks [PauseClick; RotateClick; PauseClick] st)
      with (pause_click (rotate_click (pause_click st))).
    destruct (rotate_click_variables (pause_click st)) as (Hr2 & Hp2 & _).
    rewrite Hr1 in Hr2. rewrite Hp1 in Hp2.
    destruct (pause_click_variables (rotate_click (pause_click st))) as (Hp3 & Hr3 & _).
    destruct (pause_click_spec (rotate_click (pause_click st))) as (_ & _ & _ & _ & Hall).
    rewrite Hp2 in Hp3, Hall. rewrite Hr2 in Hr3, Hall. done.
Qed.
End Toggles.

Section Toggles_demo.
#[local] Existing Instance test_three.
#[local] Existing Instance test_engine.

(** C4 fails as worded.  On the demonstration page (rotation on, not
    paused), a click on pause followed by two clicks on the rotate toggle
    leaves pause on and the viewers' auto-rotate flags on. *)
Lemma pause_overrides_rotate_clicks_fails : ¬ pause_overrides_rotate_clicks.
Proof.
  intros Hclaim. destruct (Hclaim test_three test_engine demo_page 2 eq_refl) as [_ Hall].
  vm_compute in Hall. apply Forall_cons in Hall as [Hfirst _]. discriminate Hfirst.
Qed.

Lemma pause_on_off_restores_witness :
  isPaused (rotate_click demo_page) = false ∧
  isRotating (rotate_click demo_page) = false ∧
  all_autoRotate true
    (clicks [PauseClick; RotateClick; PauseClick] (rotate_click demo_page)).
Proof.
  split; [reflexivity|]. split; [reflexivity|].
  destruct (pause_on_off_restores (rotate_click demo_page) eq_refl) as [_ (_ & _ & Hall)].
  exact Hall.
Defined.
End Toggles_demo.

(** ** Sample switching *)

(** [clearViewers] rewrites the renderer and element maps and empties the
    group; every renderer of the old group ends disposed, every container
    of the old group ends empty, and the other renderers and elements are
    unchanged. *)
Lemma clearViewers_spec st :
  ∃ rm em,
    clearViewers st
      = set_allViewers [] (set_heap (set_elems em (set_renderers rm (heap st))) st) ∧
    (∀ r, rm !!! r = if bool_decide (r ∈ renderer <$> allViewers st)
                     then mkRenderer true else renderers (heap st) !!! r) ∧
    (∀ r, em !!! r = if bool_decide (r ∈ container <$> allViewers st)
                     then clear_innerHTML (elems (heap st) !!! r)
                     else elems (heap st) !!! r).
Proof.
  unfold clearViewers. cbv zeta.
  cut (∀ l st, ∃ rm em,
         forEach (λ viewer st,
                    modify_element clear_innerHTML (container viewer)
                      (modify_renderer (λ _, mkRenderer true) (renderer viewer) st)) l st
           = set_heap (set_elems em (set_renderers rm (heap st))) st ∧
         (∀ r, rm !!! r = if bool_decide (r ∈ renderer <$> l)
                          then mkRenderer true else renderers (heap st) !!! r) ∧
         (∀ r, em !!! r = if bool_decide (r ∈ container <$> l)
                          then clear_innerHTML (elems (heap st) !!! r)
                          else elems (heap st) !!! r)).
  { intros Hloop. destruct (Hloop (allViewers st) st) as (rm & em & -> & Hrm & Hem).
    by exists rm, em. }
  clear st. induction l as [|v l IH]; intros st.
  - exists (renderers (heap st)), (elems (heap st)).
    split; [by destruct st as [? ? ? ? [] ? ?]|].
    split; intros r; rewrite bool_decide_eq_false_2; try done; apply not_elem_of_nil.
  - rewrite forEach_cons.
    destruct (IH (modify_element clear_innerHTML (container v)
                    (modify_renderer (λ _, mkRenderer true) (renderer v) st)))
      as (rm & em & -> & Hrm & Hem).
    exists rm, em. split; [done|]. simpl in Hrm, Hem. split; intros r.
    + rewrite Hrm. destruct (decide (renderer v = r)) as [<-|Hne].
      * rewrite modify_total_eq.
        rewrite (bool_decide_eq_true_2 (renderer v ∈ renderer <$> v :: l)) by left.
        by case_bool_decide.
      * rewrite modify_total_ne by done.
        do 2 case_bool_decide; try done.
        -- exfalso. apply H0. by right.
        -- exfalso. apply elem_of_cons in H0 as [?|?]; [congruence|done].
    + rewrite Hem. destruct (decide (container v = r)) as [<-|Hne].
      * rewrite modify_total_eq.
        rewrite (bool_decide_eq_true_2 (container v ∈ container <$> v :: l)) by left.
        by case_bool_decide.
      * rewrite modify_total_ne by done.
        do 2 case_bool_decide; try done.
        -- exfalso. apply H0. by right.
        -- exfalso. apply elem_of_cons in H0 as [?|?]; [congruence|done].
Qed.

Lemma clearViewers_empties st : allViewers (clearViewers st) = [].
Proof. by destruct (clearViewers_spec st) as (rm & em & -> & _). Qed.

Lemma clearViewers_disposes st :
  Forall (λ v, disposed (renderer_at (clearViewers st) (renderer v)) = true) (allViewers st).
Proof.
  destruct (clearViewers_spec st) as (rm & em & -> & Hrm & _).
  apply Forall_forall. intros v Hv. unfold renderer_at. simpl. rewrite Hrm.
  rewrite bool_decide_eq_true_2; [done|]. by apply list_elem_of_fmap_2.
Qed.

Lemma clearViewers_rest st :
  isSyncing (clearViewers st) = isSyncing st ∧
  isRotating (clearViewers st) = isRotating st ∧
  isPaused (clearViewers st) = isPaused st ∧
  document (clearViewers st) = document st ∧
  loads (clearViewers st) = loads st ∧
  next (heap (clearViewers st)) = next (heap st) ∧
  cameras (heap (clearViewers st)) = cameras (heap st) ∧
  orbits (heap (clearViewers st)) = orbits (heap st) ∧
  scenes (heap (clearViewers st)) = scenes (heap st).
Proof. by destruct (clearViewers_spec st) as (rm & em & -> & _). Qed.

(** Reading through a chain of insertions at references that differ by
    known offsets. *)
Ltac heap_lookup :=
  unfold modify;
  repeat first [ rewrite lookup_total_insert_eq
               | rewrite lookup_total_insert_ne by lia ].

Lemma write_markup_spec labels st :
  let n := next (heap st) in
  let r := write_markup labels st in
  r.1 = mkMarkup (label_text labels 0) (label_text labels 1) n (1 + n) (2 + n) ∧
  allViewers r.2 = allViewers st ∧
  isSyncing r.2 = isSyncing st ∧
  isRotating r.2 = isRotating st ∧
  isPaused r.2 = isPaused st ∧
  document r.2 = set_viewers_container (Some r.1) (document st) ∧
  loads r.2 = loads st ∧
  next (heap r.2) = 3 + n ∧
  cameras (heap r.2) = cameras (heap st) ∧
  orbits (heap r.2) = orbits (heap st) ∧
  renderers (heap r.2) = renderers (heap st) ∧
  scenes (heap r.2) = scenes (heap st) ∧
  elems (heap r.2)
    = <[2 + n := mkElement "" "" "" []]>
        (<[1 + n := mkElement "" "" "" []]>
           (<[n := mkElement "" "" "" []]> (elems (heap st)))).
Proof. repeat split. Qed.

Lemma new_group_NoDup n :
  NoDup (camera <$> new_group n) ∧ NoDup (controls <$> new_group n).
Proof.
  split; cbn [new_group fmap list_fmap camera controls];
    repeat (apply NoDup_cons_2 || apply NoDup_nil_2);
    rewrite ?elem_of_cons, ?elem_of_nil; lia.
Qed.

(** *** Property reads *)

Lemma scaleMap_truthy objName s : scaleMap !! objName = Some s → truthy s = true.
Proof.
  unfold scaleMap. intros Hs.
  repeat (apply lookup_insert_Some in Hs as [[_ <-]|[_ Hs]]; [reflexivity|]).
  by rewrite lookup_empty in Hs.
Qed.

(** A name that [Object.prototype] does not hold reads as the literal's
    own entry or as [undefined]. *)
Lemma get_own {A} (o : gmap string A) name :
  name ∉ Object_prototype →
  get o name = match o !! name with Some a => Own a | None => Undefined end.
Proof.
  intros Hname. unfold get. destruct (o !! name); [done|].
  by rewrite bool_decide_eq_false_2.
Qed.

(** A name that the literal does not hold and [Object.prototype] does reads
    as what the prototype holds. *)
Lemma get_inherited {A} (o : gmap string A) name :
  o !! name = None → name ∈ Object_prototype → get o name = FromPrototype name.
Proof. intros Ho Hname. unfold get. rewrite Ho. by rewrite bool_decide_eq_true_2. Qed.

(** On this [scaleMap] the [||] of [scale_for] only ever replaces
    [undefined]. *)
Lemma scale_for_default name :
  name ∉ Object_prototype → scale_for name = Num (default 1%float (scaleMap !! name)).
Proof.
  intros Hname. unfold scale_for. rewrite (get_own _ _ Hname).
  destruct (scaleMap !! name) as [s|] eqn:Hs; [|done].
  by rewrite (scaleMap_truthy name s Hs).
Qed.

Lemma sampleLabels_pair name labels :
  sampleLabels !! name = Some labels →
  [label_text (LabelArray labels) 0; label_text (LabelArray labels) 1] = labels.
Proof.
  unfold sampleLabels. intros Hl.
  repeat (apply lookup_insert_Some in Hl as [[_ <-]|[_ Hl]]; [reflexivity|]).
  by rewrite lookup_empty in Hl.
Qed.

Lemma labels_for_default name :
  name ∉ Object_prototype →
  [label_text (labels_for name) 0; label_text (labels_for name) 1]
    = default ["Sample 1"; "Sample 2"] (sampleLabels !! name).
Proof.
  intros Hname. unfold labels_for. rewrite (get_own _ _ Hname).
  destruct (sampleLabels !! name) as [l|] eqn:Hl; [|done].
  by apply sampleLabels_pair in Hl.
Qed.

(** Whatever the name, the scale handed to the loads is truthy. *)
Lemma scale_for_truthy name : Value_truthy (scale_for name) = true.
Proof.
  unfold scale_for. destruct (get scaleMap name) as [s| |]; [|done|done].
  by destruct (truthy s) eqn:Hs.
Qed.

(** A name of [Object.prototype] is not a sample of either literal: the
    scale is then the inherited function or object, and both captions read
    [undefined]. *)
Lemma inherited_scale_and_labels name :
  name ∈ Object_prototype →
  scale_for name = Inherited name ∧
  label_text (labels_for name) 0 = "undefined" ∧
  label_text (labels_for name) 1 = "undefined".
Proof.
  intros Hname.
  assert (Hs : scaleMap !! name = None ∧ sampleLabels !! name = None).
  { unfold Object_prototype in Hname.
    repeat (apply elem_of_cons in Hname as [->|Hname]; [by vm_compute|]).
    by apply elem_of_nil in Hname. }
  destruct Hs as [Hs Hl]. unfold scale_for, labels_for.
  by rewrite (get_inherited _ _ Hs Hname), (get_inherited _ _ Hl Hname).
Qed.

(** *** The selector *)

(** For a plain name the selector finds the first element of the page
    whose [data-obj] is that name, if there is one. *)
Lemma querySelector_plain `{SelectorEngine} name d :
  plain name = true →
  querySelector_data_obj name d
    = match head (filter (λ element, data_obj element = Some name) (tabButtons d)) with
      | Some element => Found element
      | None => Null
      end.
Proof. intros Hp. unfold querySelector_data_obj. by rewrite Hp. Qed.

(** The first element of a list that satisfies a decidable predicate. *)
Lemma head_filter_Some {A} (P : A → Prop) `{∀ a, Decision (P a)} (l : list A) a :
  head (filter P l) = Some a ↔
  ∃ before after, l = before ++ a :: after ∧ P a ∧ Forall (λ b, ¬ P b) before.
Proof.
  induction l as [|b l IH].
  - split; [done|]. intros (before & after & Heq & _). by destruct before.
  - rewrite filter_cons. destruct (decide (P b)) as [Hb|Hb].
    + simpl. split.
      * intros [= ->]. exists [], l. by repeat split.
      * intros (before & after & Heq & Ha & Hbefore).
        destruct before as [|c before]; simplify_eq/=; [done|].
        by apply Forall_cons in Hbefore as [? _].
    + rewrite IH. split.
      * intros (before & after & -> & Ha & Hbefore).
        exists (b :: before), after. split; [done|]. split; [done|]. by apply Forall_cons_2.
      * intros (before & after & Heq & Ha & Hbefore).
        destruct before as [|c before]; simplify_eq/=; [done|].
        apply Forall_cons in Hbefore as [_ Hbefore]. by exists before, after.
Qed.

Lemma head_filter_None {A} (P : A → Prop) `{∀ a, Decision (P a)} (l : list A) :
  head (filter P l) = None ↔ Forall (λ b, ¬ P b) l.
Proof.
  induction l as [|b l IH]; [by split|].
  rewrite filter_cons. destruct (decide (P b)) as [Hb|Hb].
  - simpl. split; [done|]. by intros [? _]%Forall_cons.
  - rewrite IH. split; [by apply Forall_cons_2|]. by intros [_ ?]%Forall_cons.
Qed.

Section Switch.
Context `{ThreeLib} `{SelectorEngine}.

(** Without an element for the sample, or with a selector the engine
    rejects, [loadTab] throws once the old group is gone. *)
Lemma loadTab_throws objName st :
  (∀ element, querySelector_data_obj (text_of objName) (document st) ≠ Found element) →
  loadTab objName st = Threw (clearViewers st).
Proof.
  intros Hq. unfold loadTab. cbv zeta.
  destruct (clearViewers_rest st) as (_ & _ & _ & -> & _).
  by destruct (querySelector_data_obj _ _) as [element| |]; [destruct (Hq element)| |].
Qed.

Lemma initViewer_spec cont path g s st :
  let n := next (heap st) in
  let r := initViewer cont path g s st in
  let built := OrbitControls_new (1 + n) (mkCamera (mkVector3 0 1.5 3) None) in
  r.1 = mkViewer n (1 + n) (2 + n) (3 + n) cont ∧
  allViewers r.2 = allViewers st ∧
  isSyncing r.2 = isSyncing st ∧
  isRotating r.2 = isRotating st ∧
  isPaused r.2 = isPaused st ∧
  document r.2 = document st ∧
  loads r.2 = loads st ++ [mkLoad path n s (4 + n)] ∧
  next (heap r.2) = 5 + n ∧
  cameras (heap r.2) = <[1 + n := update_camera built]> (cameras (heap st)) ∧
  orbits (heap r.2)
    = <[3 + n := mkControls (1 + n) (update_target built) false false true 2 false]>
        (orbits (heap st)) ∧
  renderers (heap r.2) = <[2 + n := mkRenderer false]> (renderers (heap st)) ∧
  scenes (heap r.2) = <[n := mkScene g []]> (scenes (heap st)) ∧
  elems (heap r.2)
    = modify (appendChild (Element (4 + n))) cont
        (<[4 + n := mkElement "loading" "Loading..." "" []]>
           (modify (appendChild (Canvas (2 + n))) cont (elems (heap st)))).
Proof. repeat split. Qed.

Lemma loadTab_returns objName st btn :
  querySelector_data_obj (text_of objName) (document st) = Found btn →
  let n := next (heap st) in
  ∃ st', loadTab objName st = Returned st' ∧
    allViewers st' = new_group n ∧
    loads st' = loads st ++ new_loads btn (scale_for (text_of objName)) n ∧
    viewers_container (document st')
      = Some (mkMarkup (label_text (labels_for (text_of objName)) 0)
                       (label_text (labels_for (text_of objName)) 1) n (1 + n) (2 + n)) ∧
    isSyncing st' = isSyncing st ∧
    isRotating st' = isRotating st ∧
    isPaused st' = isPaused st ∧
    next (heap st') = 18 + n ∧
    all_autoRotate (isRotating st) st' ∧
    Forall (λ v, object (controls_at st' (controls v)) = camera v) (allViewers st') ∧
    Forall (λ v, disposed (renderer_at st' (renderer v)) = false) (allViewers st') ∧
    (∀ r, r < n → renderer_at st' r = renderer_at (clearViewers st) r) ∧
    Forall (λ v, element_at st' (container v)
                   = mkElement "" "" "" [Canvas (renderer v); Element (4 + scene v)] ∧
                 element_at st' (4 + scene v) = mkElement "loading" "Loading..." "" [])
           (allViewers st').
Proof.
  intros Hq n. unfold loadTab. cbv zeta.
  destruct (clearViewers_rest st)
    as (Hsync & Hrot & Hpau & Hdoc & Hloads & Hnext & Hcams & Horb & Hscn).
  rewrite Hdoc, Hq.
  set (st1 := set_document _ (clearViewers st)).
  pose proof (write_markup_spec (labels_for (text_of objName)) st1) as Hm.
  destruct (write_markup (labels_for (text_of objName)) st1) as [m st2].
  cbv zeta in Hm. cbn [fst snd] in Hm.
  destruct Hm as (-> & Hm). cbn [condition_viewer gen1_viewer gen2_viewer].
  pose proof (initViewer_spec (next (heap st1)) (data_condition btn) false (scale_for (text_of objName)) st2) as Hc.
  destruct (initViewer (next (heap st1)) (data_condition btn) false (scale_for (text_of objName)) st2) as [c st3].
  cbv zeta in Hc. cbn [fst snd] in Hc. destruct Hc as (-> & Hc).
  pose proof (initViewer_spec (1 + next (heap st1)) (data_gen1 btn) true (scale_for (text_of objName)) st3) as Hg1.
  destruct (initViewer (1 + next (heap st1)) (data_gen1 btn) true (scale_for (text_of objName)) st3) as [g1 st4].
  cbv zeta in Hg1. cbn [fst snd] in Hg1. destruct Hg1 as (-> & Hg1).
  pose proof (initViewer_spec (2 + next (heap st1)) (data_gen2 btn) true (scale_for (text_of objName)) st4) as Hg2.
  destruct (initViewer (2 + next (heap st1)) (data_gen2 btn) true (scale_for (text_of objName)) st4) as [g2 st5].
  cbv zeta in Hg2. cbn [fst snd] in Hg2. destruct Hg2 as (-> & Hg2).
  destruct Hm as (Hm_all & Hm_sync & Hm_rot & Hm_pau & Hm_doc & Hm_loads & Hm_next
                  & Hm_cams & Hm_orb & Hm_rend & Hm_scn & Hm_el).
  destruct Hc as (Hc_all & Hc_sync & Hc_rot & Hc_pau & Hc_doc & Hc_loads & Hc_next
                  & Hc_cams & Hc_orb & Hc_rend & Hc_scn & Hc_el).
  destruct Hg1 as (H1_all & H1_sync & H1_rot & H1_pau & H1_doc & H1_loads & H1_next
                  & H1_cams & H1_orb & H1_rend & H1_scn & H1_el).
  destruct Hg2 as (H2_all & H2_sync & H2_rot & H2_pau & H2_doc & H2_loads & H2_next
                  & H2_cams & H2_orb & H2_rend & H2_scn & H2_el).
  assert (Hn1 : next (heap st1) = n) by exact Hnext.
  rewrite Hn1 in *. rewrite Hm_next in *. rewrite Hc_next in *. rewrite H1_next in *.
  cbn [Nat.add] in *.
  set (group := [_; _; _]).
  set (st6 := set_allViewers group st5).
  change (allViewers st6) with group.
  rewrite assign_isRotating_loop.
  pose proof (assign_autoRotate_all (isRotating st6) st6) as Hall.
  change (allViewers st6) with group in Hall.
  destruct (assign_autoRotate_spec (isRotating st6) group st6) as (m & Hfin & Hlook).
  rewrite Hfin in *. clear Hfin.
  assert (Hrot6 : isRotating st6 = isRotating st).
  { change (isRotating st6) with (isRotating st5).
    rewrite H2_rot, H1_rot, Hc_rot, Hm_rot. exact Hrot. }
  rewrite Hrot6 in *.
  eexists. split; [reflexivity|].
  split; [reflexivity|].
  split. { cbn [loads set_heap set_allViewers st6].
           rewrite H2_loads, H1_loads, Hc_loads, Hm_loads.
           change (loads st1) with (loads (clearViewers st)). rewrite Hloads.
           unfold new_loads. rewrite <- !app_assoc. reflexivity. }
  split. { cbn [document set_heap set_allViewers st6].
           rewrite H2_doc, H1_doc, Hc_doc, Hm_doc. reflexivity. }
  split. { cbn [isSyncing set_heap set_allViewers st6].
           rewrite H2_sync, H1_sync, Hc_sync, Hm_sync. exact Hsync. }
  split; [exact Hrot6|].
  split. { cbn [isPaused set_heap set_allViewers st6].
           rewrite H2_pau, H1_pau, Hc_pau, Hm_pau. exact Hpau. }
  split; [exact H2_next|].
  split; [exact Hall|].
  split.
  - assert (Hobj : ∀ r, object (m !!! r) = object (orbits (heap st5) !!! r)).
    { intros r. rewrite Hlook. by case_bool_decide. }
    cbn [allViewers set_heap set_allViewers st6]. unfold controls_at.
    cbn [heap set_heap orbits set_orbits]. subst group.
    rewrite H2_orb, H1_orb, Hc_orb in Hobj.
    repeat (apply Forall_cons_2 || apply Forall_nil_2); cbn [controls camera]; rewrite Hobj.
    + rewrite lookup_total_insert_ne by lia. rewrite lookup_total_insert_ne by lia.
      by rewrite lookup_total_insert_eq.
    + rewrite lookup_total_insert_ne by lia. by rewrite lookup_total_insert_eq.
    + by rewrite lookup_total_insert_eq.
  - split; [|split].
    + cbn [allViewers set_heap set_allViewers st6]. unfold renderer_at.
      cbn [heap set_heap renderers set_orbits]. subst group.
      change (renderers (heap st6)) with (renderers (heap st5)).
      rewrite H2_rend, H1_rend, Hc_rend.
      repeat (apply Forall_cons_2 || apply Forall_nil_2); cbn [renderer];
        by heap_lookup.
    + intros r Hr. unfold renderer_at. cbn [heap set_heap renderers set_orbits].
      change (renderers (heap st6)) with (renderers (heap st5)).
      rewrite H2_rend, H1_rend, Hc_rend, Hm_rend. by heap_lookup.
    + cbn [allViewers set_heap set_allViewers st6]. unfold element_at.
      cbn [heap set_heap elems set_orbits]. subst group.
      change (elems (heap st6)) with (elems (heap st5)).
      rewrite H2_el, H1_el, Hc_el, Hm_el.
      repeat (apply Forall_cons_2 || apply Forall_nil_2); cbn [container renderer scene];
        split; by heap_lookup.
Qed.


Lemma loadTab_well_formed objName st st' :
  loadTab objName st = Returned st' →
  allViewers st' = new_group (next (heap st)) ∧ well_formed st' ∧ allocated st' ∧
  isSyncing st' = isSyncing st.
Proof.
  intros Hrun.
  destruct (querySelector_data_obj (text_of objName) (document st)) as [btn| |] eqn:Hq;
    [|rewrite loadTab_throws in Hrun; [done|by rewrite Hq]..].
  destruct (loadTab_returns objName st btn Hq)
    as (st2 & Hrun2 & Hgroup & _ & _ & Hsync & _ & _ & Hnext & _ & Hobj & _).
  rewrite Hrun in Hrun2. injection Hrun2 as <-.
  split; [done|]. split; [|split; [|done]].
  - unfold well_formed. rewrite Hgroup in *.
    destruct (new_group_NoDup (next (heap st))) as [Hcam Hctl]. done.
  - unfold allocated. rewrite Hgroup, Hnext. unfold new_group.
    repeat (apply Forall_cons_2 || apply Forall_nil_2); cbn [camera renderer controls]; lia.
Qed.

(** However a switch ends, the stored flags are as before and the flags of
    the group it leaves are at the stored rotate flag. *)
Lemma loadTab_flags objName st :
  isRotating (page_of (loadTab objName st)) = isRotating st ∧
  isPaused (page_of (loadTab objName st)) = isPaused st ∧
  all_autoRotate (isRotating st) (page_of (loadTab objName st)).
Proof.
  destruct (querySelector_data_obj (text_of objName) (document st)) as [btn| |] eqn:Hq.
  - destruct (loadTab_returns objName st btn Hq)
      as (st' & -> & _ & _ & _ & _ & Hrot & Hpau & _ & Hall & _). done.
  - rewrite loadTab_throws by (by rewrite Hq).
    destruct (clearViewers_rest st) as (_ & Hrot & Hpau & _).
    split; [done|]. split; [done|].
    unfold all_autoRotate. cbn [page_of]. by rewrite clearViewers_empties.
  - rewrite loadTab_throws by (by rewrite Hq).
    destruct (clearViewers_rest st) as (_ & Hrot & Hpau & _).
    split; [done|]. split; [done|].
    unfold all_autoRotate. cbn [page_of]. by rewrite clearViewers_empties.
Qed.

(** C6, amended.  Every switch runs [clearViewers] first: after it the
    group is empty and the renderer of every viewer of the old group is
    disposed.  The builders that run next ([write_markup], [initViewer])
    leave the group variable alone.  If the selector finds the sample's
    element, the switch ends by assigning the group once: exactly three
    viewers, built by this call from fresh references, sharing nothing,
    none disposed, the renderers of the old group still disposed.  If it
    does not (no element carries the name, or the selector is rejected),
    the switch throws and leaves the group as [clearViewers] left it:
    empty. *)
Theorem loadTab_replaces_group (objName : option string) (st : Page) :
  allViewers (clearViewers st) = [] ∧
  Forall (λ v, disposed (renderer_at (clearViewers st) (renderer v)) = true) (allViewers st) ∧
  (∀ labels st0, allViewers (write_markup labels st0).2 = allViewers st0) ∧
  (∀ container glbPath showGround scale st0,
     allViewers (initViewer container glbPath showGround scale st0).2 = allViewers st0) ∧
  match querySelector_data_obj (text_of objName) (document st) with
  | Found tabButton =>
      ∃ st', loadTab objName st = Returned st' ∧
        allViewers st' = new_group (next (heap st)) ∧
        length (allViewers st') = 3 ∧
        well_formed st' ∧
        Forall (λ v, disposed (renderer_at st' (renderer v)) = false) (allViewers st') ∧
        (allocated st →
         Forall (λ v, disposed (renderer_at st' (renderer v)) = true) (allViewers st))
  | Null | SyntaxError =>
      loadTab objName st = Threw (clearViewers st) ∧
      allViewers (page_of (loadTab objName st)) = []
  end.
Proof.
  split; [apply clearViewers_empties|].
  split; [apply clearViewers_disposes|].
  split; [done|]. split; [done|].
  destruct (querySelector_data_obj (text_of objName) (document st)) as [tabButton| |] eqn:Hq.
  - destruct (loadTab_returns objName st tabButton Hq)
      as (st' & Hrun & Hgroup & _ & _ & _ & _ & _ & _ & _ & Hobj & Hlive & Hold & _).
    exists st'. split; [done|]. split; [done|].
    split; [by rewrite Hgroup|].
    split; [by apply (loadTab_well_formed objName st st')|split; [done|]].
    intros Halloc. pose proof (clearViewers_disposes st) as Hdisp.
    unfold allocated in Halloc.
    rewrite Forall_forall in Halloc. rewrite Forall_forall in Hdisp.
    apply Forall_forall. intros v Hv.
    rewrite Hold; [by apply Hdisp|]. by apply Halloc.
  - rewrite loadTab_throws by (by rewrite Hq). split; [done|]. apply clearViewers_empties.
  - rewrite loadTab_throws by (by rewrite Hq). split; [done|]. apply clearViewers_empties.
Qed.

(** C7.  However a sample switch ends, [isRotating] and [isPaused] are what
    they were and every viewer of the group it leaves has its auto-rotate
    flag at the stored rotate flag, whatever [isPaused] is.  When the
    selector finds the sample's element that group is the three viewers
    the switch has just built, so on a paused page with rotation on the
    three new viewers are auto-rotating. *)
Theorem loadTab_follows_rotate_flag (objName : option string) (st : Page) :
  all_autoRotate (isRotating st) (page_of (loadTab objName st)) ∧
  isRotating (page_of (loadTab objName st)) = isRotating st ∧
  isPaused (page_of (loadTab objName st)) = isPaused st ∧
  match querySelector_data_obj (text_of objName) (document st) with
  | Found tabButton =>
      ∃ st', loadTab objName st = Returned st' ∧
        allViewers st' = new_group (next (heap st)) ∧
        length (allViewers st') = 3 ∧
        Forall (λ v, autoRotate (controls_at st' (controls v)) = isRotating st)
               (new_group (next (heap st)))
  | Null | SyntaxError => allViewers (page_of (loadTab objName st)) = []
  end.
Proof.
  destruct (querySelector_data_obj (text_of objName) (document st)) as [tabButton| |] eqn:Hq.
  - destruct (loadTab_returns objName st tabButton Hq)
      as (st' & Hrun & Hgroup & _ & _ & _ & Hrot & Hpau & _ & Hall & _).
    rewrite Hrun. cbn [page_of]. split; [done|]. split; [done|]. split; [done|].
    exists st'. split; [done|]. split; [done|]. split; [by rewrite Hgroup|].
    unfold all_autoRotate in Hall. by rewrite Hgroup in Hall.
  - assert (Hthrow : loadTab objName st = Threw (clearViewers st)).
    { apply loadTab_throws. by rewrite Hq. }
    rewrite Hthrow. cbn [page_of].
    destruct (clearViewers_rest st) as (_ & Hrot & Hpau & _).
    pose proof (clearViewers_empties st) as Hempty.
    split; [|done]. unfold all_autoRotate. by rewrite Hempty.
  - assert (Hthrow : loadTab objName st = Threw (clearViewers st)).
    { apply loadTab_throws. by rewrite Hq. }
    rewrite Hthrow. cbn [page_of].
    destruct (clearViewers_rest st) as (_ & Hrot & Hpau & _).
    pose proof (clearViewers_empties st) as Hempty.
    split; [|done]. unfold all_autoRotate. by rewrite Hempty.
Qed.

(** C8, amended.  For a sample name that [Object.prototype] does not hold:
    if the selector finds the sample's element, the switch returns; the
    three loads it issues carry, as the scale their success callback
    applies to the loaded model, the [scaleMap] entry of the name, or
    [1.0] if there is none; the captions it writes are the [sampleLabels]
    entry of the name, or ['Sample 1'] and ['Sample 2'] if there is none.
    If the selector does not find an element, the switch throws instead of
    falling back. *)
Theorem loadTab_scale_and_labels (objName : option string) (st : Page) :
  text_of objName ∉ Object_prototype →
  match querySelector_data_obj (text_of objName) (document st) with
  | Found tabButton =>
      ∃ st' r1 r2 r3 m, loadTab objName st = Returned st' ∧
        loads st' = loads st ++ [r1; r2; r3] ∧
        Forall (λ r, load_scale r = Num (default 1%float (scaleMap !! text_of objName)))
               [r1; r2; r3] ∧
        Forall (λ r, ∀ gltf_scene page,
                  models (scene_at (load_onLoad r gltf_scene page) (load_scene r))
                    = models (scene_at page (load_scene r))
                      ++ [mkModel (setScalar (Num (default 1%float (scaleMap !! text_of objName))))
                                  (shade <$> nodes gltf_scene)])
               [r1; r2; r3] ∧
        viewers_container (document st') = Some m ∧
        [caption1 m; caption2 m]
          = default ["Sample 1"; "Sample 2"] (sampleLabels !! text_of objName)
  | Null | SyntaxError => loadTab objName st = Threw (clearViewers st)
  end.
Proof.
  intros Hname.
  destruct (querySelector_data_obj (text_of objName) (document st)) as [tabButton| |] eqn:Hq;
    [|apply loadTab_throws; by rewrite Hq..].
  destruct (loadTab_returns objName st tabButton Hq)
    as (st' & Hrun & _ & Hloads & Hdoc & _).
  unfold new_loads in Hloads. rewrite (scale_for_default _ Hname) in Hloads.
  eexists st', _, _, _, _. split; [exact Hrun|]. split; [exact Hloads|].
  split; [by repeat constructor|].
  split; [|split; [exact Hdoc|by apply labels_for_default]].
  repeat (apply Forall_cons_2 || apply Forall_nil_2); intros gltf page;
    unfold load_onLoad, scene_at, modify_element, modify_scene;
    cbn [heap set_heap scenes set_scenes set_elems load_scene load_scale];
    by rewrite modify_total_eq.
Qed.
End Switch.

Section Switch_demo.
#[local] Existing Instance test_three.
#[local] Existing Instance test_engine.

Lemma demo_page_allocated : allocated demo_page.
Proof. apply (bool_decide_unpack _). vm_compute. reflexivity. Qed.

Lemma demo_example_2_found :
  querySelector_data_obj (text_of (Some "example_2")) (document demo_page)
    = Found demo_example_2.
Proof. vm_compute. reflexivity. Qed.

Lemma demo_example_9_found :
  querySelector_data_obj (text_of (Some "example_9")) (document demo_page)
    = Found demo_example_9.
Proof. vm_compute. reflexivity. Qed.

(** C6 fails as worded.  On the demonstration page the fifth tab has no
    [data-obj]; the switch its click listener runs throws and leaves no
    viewer at all. *)
Lemma every_switch_yields_three_fails : ¬ every_switch_yields_three.
Proof.
  intros Hclaim.
  destruct (Hclaim test_three test_engine demo_page (mkTabButton true None None None None false))
    as (st' & Hrun & _).
  - vm_compute. do 4 apply list_elem_of_further. apply list_elem_of_here.
  - reflexivity.
  - vm_compute in Hrun. discriminate Hrun.
Qed.

Lemma loadTab_replaces_group_witness :
  ∃ st', loadTab (Some "example_2") demo_page = Returned st' ∧
    allViewers st' = new_group 18 ∧
    length (allViewers st') = 3 ∧
    Forall (λ v, disposed (renderer_at st' (renderer v)) = true) (allViewers demo_page).
Proof.
  destruct (loadTab_replaces_group (Some "example_2") demo_page) as (_ & _ & _ & _ & Hfound).
  rewrite demo_example_2_found in Hfound.
  destruct Hfound as (st' & Hrun & Hgroup & Hthree & _ & _ & Hold).
  exists st'. split; [exact Hrun|]. split; [exact Hgroup|]. split; [exact Hthree|].
  apply Hold. exact demo_page_allocated.
Defined.

Lemma loadTab_follows_rotate_flag_witness :
  isPaused (pause_click demo_page) = true ∧ isRotating (pause_click demo_page) = true ∧
  ∃ st', loadTab (Some "example_2") (pause_click demo_page) = Returned st' ∧
    allViewers st' = new_group 18 ∧
    Forall (λ v, autoRotate (controls_at st' (controls v)) = true) (new_group 18) ∧
    isPaused st' = true.
Proof.
  split; [vm_compute; reflexivity|]. split; [vm_compute; reflexivity|].
  destruct (loadTab_follows_rotate_flag (Some "example_2") (pause_click demo_page))
    as (_ & _ & Hpau & Hfound).
  assert (Hq : querySelector_data_obj (text_of (Some "example_2"))
                 (document (pause_click demo_page))
               = Found demo_example_2) by (vm_compute; reflexivity).
  rewrite Hq in Hfound.
  destruct Hfound as (st' & Hrun & Hgroup & _ & Hall).
  exists st'. rewrite Hrun in Hpau. cbn [page_of] in Hpau.
  split; [exact Hrun|]. split; [exact Hgroup|]. split; [exact Hall|exact Hpau].
Defined.

(** C8 fails as worded.  On the demonstration page no element carries
    [example_4], a name neither literal knows: the switch to it throws
    instead of falling back to the default scale and captions. *)
Lemma unknown_sample_falls_back_fails : ¬ unknown_sample_falls_back.
Proof.
  intros Hclaim.
  destruct (Hclaim test_three test_engine "example_4" demo_page)
    as (st' & m & Hrun & _); [reflexivity|reflexivity|].
  vm_compute in Hrun. discriminate Hrun.
Qed.

Lemma loadTab_scale_and_labels_witness :
  (text_of (Some "example_9") ∉ Object_prototype) ∧
  ∃ st' r1 r2 r3 m, loadTab (Some "example_9") demo_page = Returned st' ∧
    loads st' = loads demo_page ++ [r1; r2; r3] ∧
    Forall (λ r, load_scale r = Num 1%float) [r1; r2; r3] ∧
    viewers_container (document st') = Some m ∧
    [caption1 m; caption2 m] = ["Sample 1"; "Sample 2"].
Proof.
  assert (Hname : text_of (Some "example_9") ∉ Object_prototype).
  { apply (bool_decide_unpack _). vm_compute. reflexivity. }
  split; [exact Hname|].
  pose proof (loadTab_scale_and_labels (Some "example_9") demo_page Hname) as Hfound.
  rewrite demo_example_9_found in Hfound.
  destruct Hfound as (st' & r1 & r2 & r3 & m & Hrun & Hloads & Hscale & _ & Hdoc & Hlabels).
  exists st', r1, r2, r3, m.
  split; [exact Hrun|]. split; [exact Hloads|]. split; [exact Hscale|].
  split; [exact Hdoc|exact Hlabels].
Defined.
End Switch_demo.

(** ** Load failure *)

(** Where the indicator of a load sits: in the group a sample switch
    returns, the container of each viewer holds that viewer's canvas and
    one loading indicator, and the load issued for the viewer closes over
    that indicator. *)
Lemma loadTab_indicators `{ThreeLib} `{SelectorEngine} objName st tabButton :
  querySelector_data_obj (text_of objName) (document st) = Found tabButton →
  ∃ st' reqs, loadTab objName st = Returned st' ∧
    loads st' = loads st ++ reqs ∧
    Forall2 (λ v req,
               load_scene req = scene v ∧
               children (element_at st' (container v))
                 = [Canvas (renderer v); Element (load_loading req)] ∧
               element_at st' (load_loading req) = mkElement "loading" "Loading..." "" [])
            (allViewers st') reqs.
Proof.
  intros Hq.
  destruct (loadTab_returns objName st tabButton Hq)
    as (st' & Hrun & Hgroup & Hloads & _ & _ & _ & _ & _ & _ & _ & _ & _ & Hel).
  exists st', (new_loads tabButton (scale_for (text_of objName)) (next (heap st))).
  split; [done|]. split; [done|].
  rewrite Hgroup in *. unfold new_group, new_loads in *.
  apply Forall_cons in Hel as [[Hc1 Hl1] Hel].
  apply Forall_cons in Hel as [[Hc2 Hl2] Hel].
  apply Forall_cons in Hel as [[Hc3 Hl3] _].
  cbn [container renderer scene] in *.
  repeat (apply Forall2_cons_2 || apply Forall2_nil_2);
    cbn [container renderer scene load_scene load_loading];
    (split; [done|split; [|done]]).
  - by rewrite Hc1.
  - by rewrite Hc2.
  - by rewrite Hc3.
Qed.

(** C9.  The error callback of a load writes ['Error loading model'] into
    the loading indicator that load closes over, appends one line to the
    console, and changes nothing else: every other element, every camera,
    controls object, renderer and scene, the group, the three flags
    ([isSyncing] among them) and the rest of the document are as before,
    and no load is issued. *)
Theorem load_onError_local (req : LoadRequest) (err : string) (st : Page) :
  innerText (element_at (load_onError req err st) (load_loading req)) = "Error loading model" ∧
  element_at (load_onError req err st) (load_loading req)
    = set_innerText "Error loading model" (element_at st (load_loading req)) ∧
  (∀ r, r ≠ load_loading req →
        elems (heap (load_onError req err st)) !! r = elems (heap st) !! r) ∧
  cameras (heap (load_onError req err st)) = cameras (heap st) ∧
  orbits (heap (load_onError req err st)) = orbits (heap st) ∧
  renderers (heap (load_onError req err st)) = renderers (heap st) ∧
  scenes (heap (load_onError req err st)) = scenes (heap st) ∧
  next (heap (load_onError req err st)) = next (heap st) ∧
  allViewers (load_onError req err st) = allViewers st ∧
  isSyncing (load_onError req err st) = isSyncing st ∧
  isRotating (load_onError req err st) = isRotating st ∧
  isPaused (load_onError req err st) = isPaused st ∧
  loads (load_onError req err st) = loads st ∧
  document (load_onError req err st)
    = set_console (console (document st) ++ ["Error loading GLB: " ++ err]%string)
                  (document st).
Proof.
  assert (Hel : element_at (load_onError req err st) (load_loading req)
                = set_innerText "Error loading model" (element_at st (load_loading req))).
  { unfold load_onError, element_at, modify_element. cbn [heap set_heap elems set_elems].
    apply modify_total_eq. }
  split; [by rewrite Hel|]. split; [exact Hel|].
  split; [|done].
  intros r Hr. unfold load_onError, modify_element. cbn [heap set_heap elems set_elems].
  apply modify_lookup_ne. congruence.
Qed.

(** ** Between events *)

Lemma at_rest_preserved st st' :
  at_rest st →
  allViewers st' = allViewers st → isSyncing st' = isSyncing st →
  next (heap st') = next (heap st) →
  (∀ r, object (controls_at st' r) = object (controls_at st r)) →
  at_rest st'.
Proof.
  intros (Hs & (Hcam & Hctl & Hobj) & Halloc) Hall Hsync Hnext Hobj'.
  split; [congruence|]. split.
  - unfold well_formed. rewrite Hall. split; [done|]. split; [done|].
    eapply Forall_impl; [exact Hobj|]. intros v Hv. by rewrite Hobj'.
  - unfold allocated. by rewrite Hall, Hnext.
Qed.

Lemma moves_only_at_rest C K st st' : moves_only C K st st' → at_rest st → at_rest st'.
Proof.
  intros Hm Hrest. pose proof (moves_rest _ _ _ _ Hm) as Hr.
  apply (at_rest_preserved st); [done| | | |].
  - by apply (f_equal allViewers) in Hr.
  - by apply (f_equal isSyncing) in Hr.
  - by apply (f_equal (λ p, next (heap p))) in Hr.
  - intros r. by eapply moves_only_object.
Qed.

Lemma object_mouseup st r : object (controls_at (mouseup st) r) = object (controls_at st r).
Proof.
  unfold controls_at, mouseup. cbn [heap set_heap orbits set_orbits].
  rewrite !lookup_total_alt, lookup_fmap. by destruct (orbits (heap st) !! r).
Qed.

Section Session.
Context `{ThreeLib} `{SelectorEngine}.

(** A switch that throws leaves the page as [clearViewers] left it. *)
Lemma loadTab_Threw objName st st' : loadTab objName st = Threw st' → st' = clearViewers st.
Proof.
  intros Hrun.
  destruct (querySelector_data_obj (text_of objName) (document st)) as [b| |] eqn:Hq.
  - destruct (loadTab_returns _ st b Hq) as (st2 & Hrun2 & _). congruence.
  - rewrite loadTab_throws in Hrun by (by rewrite Hq). congruence.
  - rewrite loadTab_throws in Hrun by (by rewrite Hq). congruence.
Qed.

Lemma loadTab_at_rest objName st : at_rest st → at_rest (page_of (loadTab objName st)).
Proof.
  intros Hrest. destruct (loadTab _ st) as [st'|st'] eqn:Hrun.
  - destruct (loadTab_well_formed _ _ _ Hrun) as (_ & Hwf & Halloc & Hsync).
    destruct Hrest as (Hs & _). cbn [page_of]. split; [congruence|done].
  - apply loadTab_Threw in Hrun as ->.
    cbn [page_of]. destruct (clearViewers_rest st) as (Hsync & _).
    destruct Hrest as (Hs & _). split; [congruence|].
    unfold well_formed, allocated. rewrite clearViewers_empties.
    repeat split; constructor.
Qed.

Lemma click_at_rest c st : at_rest st → at_rest (click c st).
Proof.
  intros Hrest. destruct c as [i| |]; cbn [click].
  - destruct (tabButtons (document st) !! i) as [btn|]; [|done].
    destruct (tab_button btn); [|done]. by apply loadTab_at_rest.
  - destruct (rotate_click_spec st) as (m & d & Heq & Hobj & _).
    apply (at_rest_preserved st); try done; by rewrite Heq.
  - destruct (pause_click_spec st) as (m & d & Heq & Hobj & _).
    apply (at_rest_preserved st); try done; by rewrite Heq.
Qed.

(** A ['change'] listener that fires between events: a complete pass if
    the user is dragging that viewer, nothing otherwise. *)
Lemma on_change_at_rest fuel c st :
  isSyncing st = false →
  ∃ st', on_change (syncCameras (S (S fuel))) c st = Some st' ∧
         isSyncing st' = false ∧
         moves_only (λ _, True) (λ _, True) st st'.
Proof.
  intros Hs. unfold on_change. destruct (userIsInteracting _).
  - destruct (syncCameras_moves fuel c st) as (st' & Hrun & Hmoves).
    exists st'. split; [done|].
    split; [|by eapply moves_only_weaken; [| |exact Hmoves]].
    apply moves_rest in Hmoves. apply (f_equal isSyncing) in Hmoves.
    cbn in Hmoves. congruence.
  - exists st. split; [done|]. split; [done|apply moves_only_refl].
Qed.

Lemma update_at_rest fuel c st :
  isSyncing st = false →
  ∃ st', update (on_change (syncCameras (S (S fuel)))) c st = Some st' ∧
         isSyncing st' = false ∧
         moves_only (λ _, True) (λ _, True) st st'.
Proof.
  intros Hs. unfold update. fold (update_silent c st).
  assert (Hsilent : moves_only (λ _, True) (λ _, True) st (update_silent c st)).
  { eapply moves_only_weaken; [| |apply update_silent_moves]; done. }
  destruct (update_change _).
  - destruct (on_change_at_rest fuel c (update_silent c st)) as (st' & Hrun & Hs' & Hmoves);
      [done|].
    exists st'. split; [done|]. split; [done|]. by eapply moves_only_trans.
  - by exists (update_silent c st).
Qed.

Lemma animate_at_rest fuel st :
  isSyncing st = false →
  ∃ st', animate (S (S fuel)) st = Some st' ∧
         isSyncing st' = false ∧
         moves_only (λ _, True) (λ _, True) st st'.
Proof.
  unfold animate, forEachM. generalize (allViewers st) as l. intros l. revert st.
  induction l as [|v l IH]; intros st Hs.
  - exists st. split; [done|]. split; [done|apply moves_only_refl].
  - cbn [foldl mbind option_bind].
    destruct (update_at_rest fuel (controls v) st Hs) as (st1 & -> & Hs1 & Hm1).
    destruct (IH st1 Hs1) as (st' & Hrun & Hs' & Hm').
    exists st'. split; [done|]. split; [done|]. by eapply moves_only_trans.
Qed.

(** Every listener runs to completion on a page at rest and leaves the
    page at rest: [isSyncing] is clear, and the group has the shape
    [initViewer] gave it. *)
Lemma handle_at_rest fuel e st :
  at_rest st → ∃ st', handle (S (S fuel)) e st = Some st' ∧ at_rest st'.
Proof.
  intros Hrest. pose proof Hrest as (Hs & _).
  destruct e as [c|c| |c| |req g|req err]; cbn [handle].
  - eexists. split; [done|]. by apply click_at_rest.
  - eexists. split; [done|]. apply (at_rest_preserved st); try done.
    intros r. unfold mousedown. by apply object_modify_controls.
  - eexists. split; [done|]. apply (at_rest_preserved st); try done.
    apply object_mouseup.
  - destruct (on_change_at_rest fuel c st Hs) as (st' & Hrun & _ & Hm).
    exists st'. split; [done|]. by eapply moves_only_at_rest.
  - destruct (animate_at_rest fuel st Hs) as (st' & Hrun & _ & Hm).
    exists st'. split; [done|]. by eapply moves_only_at_rest.
  - eexists. split; [done|]. by apply (at_rest_preserved st).
  - eexists. split; [done|]. by apply (at_rest_preserved st).
Qed.

Lemma session_at_rest fuel es st :
  at_rest st → ∃ st', session (S (S fuel)) es st = Some st' ∧ at_rest st'.
Proof.
  unfold session. revert st. induction es as [|e es IH]; intros st Hrest.
  - by exists st.
  - cbn [foldl mbind option_bind].
    destruct (handle_at_rest fuel e st Hrest) as (st1 & -> & Hrest1). by apply IH.
Qed.

Lemma initial_at_rest d : at_rest (initial d).
Proof. repeat split; constructor. Qed.

(** After [DOMContentLoaded] the page is at rest, whether or not the
    first [loadTab] found its tab. *)
Lemma DOMContentLoaded_at_rest d : at_rest (page_of (DOMContentLoaded d)).
Proof. unfold DOMContentLoaded. apply loadTab_at_rest, initial_at_rest. Qed.
End Session.

(** ** What a pass leaves in the other viewers *)

Lemma moves_only_camera_at C K st st' r :
  moves_only C K st st' → ¬ C r → camera_at st' r = camera_at st r.
Proof.
  intros Hm Hr. unfold camera_at. rewrite !lookup_total_alt.
  by rewrite (moves_cameras _ _ _ _ Hm).
Qed.

Lemma moves_only_controls_at C K st st' r :
  moves_only C K st st' → ¬ K r → controls_at st' r = controls_at st r.
Proof.
  intros Hm Hr. unfold controls_at. rewrite !lookup_total_alt.
  by rewrite (moves_controls _ _ _ _ Hm).
Qed.

Section Others.
Context `{ThreeLib}.

(** One step of the loop, on a viewer whose controls drive its camera. *)
Lemma sync_viewer_silent_result src sph v st :
  controls v ≠ src → object (controls_at st (controls v)) = camera v →
  camera_at (sync_viewer_silent src sph v st) (camera v)
    = update_camera (handed_over sph v st) ∧
  controls_at (sync_viewer_silent src sph v st) (controls v)
    = set_target (update_target (handed_over sph v st)) (controls_at st (controls v)).
Proof.
  intros Hne Hobj. unfold sync_viewer_silent, handed_over.
  destruct (decide _) as [|_]; [done|]. cbv zeta.
  set (newPos := Vector3_add _ _).
  set (st1 := modify_camera (set_position newPos) (camera v) st).
  set (st2 := modify_camera (set_lookAt _) (camera v) st1).
  assert (Hctl : controls_at st2 (controls v) = controls_at st (controls v)) by done.
  assert (Hcam : camera_at st2 (camera v)
                 = mkCamera newPos (Some (target (controls_at st (controls v))))).
  { unfold st2. rewrite camera_at_modify_eq. unfold st1. by rewrite camera_at_modify_eq. }
  unfold update_silent. rewrite Hctl, Hobj, Hcam. split.
  - rewrite camera_at_modify_controls. by rewrite camera_at_modify_eq.
  - rewrite controls_at_modify_eq. by rewrite controls_at_modify_camera.
Qed.

Lemma sync_loop_result src sph (l : list Viewer) v st :
  NoDup (camera <$> l) → NoDup (controls <$> l) →
  Forall (λ w, object (controls_at st (controls w)) = camera w) l →
  v ∈ l → controls v ≠ src →
  camera_at (forEach (sync_viewer_silent src sph) l st) (camera v)
    = update_camera (handed_over sph v st) ∧
  controls_at (forEach (sync_viewer_silent src sph) l st) (controls v)
    = set_target (update_target (handed_over sph v st)) (controls_at st (controls v)).
Proof.
  revert st. induction l as [|w l IH]; intros st Hcams Hctls Hobj Hv Hne;
    [by apply elem_of_nil in Hv|].
  rewrite fmap_cons in Hcams, Hctls.
  apply NoDup_cons in Hcams as [Hwc Hcams]. apply NoDup_cons in Hctls as [Hwk Hctls].
  apply Forall_cons in Hobj as [Hw Hobj]. rewrite forEach_cons.
  pose proof (sync_viewer_silent_moves src sph w st) as Hstep.
  assert (Hobj1 : Forall (λ u, object (controls_at (sync_viewer_silent src sph w st)
                                                   (controls u)) = camera u) l).
  { eapply Forall_impl; [exact Hobj|]. intros u Hu.
    by rewrite (moves_only_object _ _ _ _ _ Hstep). }
  apply elem_of_cons in Hv as [->|Hv].
  - destruct (sync_viewer_silent_result src sph w st Hne Hw) as [Hc Hk].
    pose proof (sync_loop_moves src sph l (sync_viewer_silent src sph w st)
                  (sync_viewer_silent src sph w st) (λ _, eq_refl)) as Hrest.
    rewrite <- Hc, <- Hk. split.
    + apply (moves_only_camera_at _ _ _ _ _ Hrest).
      intros (u & Hu & _ & Hr). apply Hwc.
      assert (camera w = camera u) as ->; [|by apply list_elem_of_fmap_2].
      destruct Hr as [->| ->]; [done|].
      rewrite Forall_forall in Hobj1. by apply Hobj1.
    + apply (moves_only_controls_at _ _ _ _ _ Hrest).
      intros (u & Hu & _ & Heq). apply Hwk. rewrite Heq. by apply list_elem_of_fmap_2.
  - assert (Hcv : camera v ≠ camera w).
    { intros Heq. apply Hwc. rewrite <- Heq. by apply list_elem_of_fmap_2. }
    assert (Hkv : controls v ≠ controls w).
    { intros Heq. apply Hwk. rewrite <- Heq. by apply list_elem_of_fmap_2. }
    destruct (IH (sync_viewer_silent src sph w st) Hcams Hctls Hobj1 Hv Hne) as [Hc Hk].
    assert (Hsame : controls_at (sync_viewer_silent src sph w st) (controls v)
                    = controls_at st (controls v)).
    { apply (moves_only_controls_at _ _ _ _ _ Hstep). by intros [_ ?]. }
    unfold handed_over in *. rewrite Hsame in *. done.
Qed.

(** X4.  After a pass from [source], every other viewer of the group holds
    what [update] returned for it when handed its camera at the source's
    spherical offset about its own target, looking at that target.  Whether
    that camera still has the source's offset is a matter of the library's
    arithmetic and of what [update] does with it. *)
Lemma syncCameras_others fuel (source v : Viewer) st :
  well_formed st → isSyncing st = false →
  v ∈ allViewers st → controls v ≠ controls source →
  ∃ st', syncCameras (S (S fuel)) (controls source) st = Some st' ∧
    camera_at st' (camera v)
      = update_camera (handed_over (source_spherical (controls source) st) v st) ∧
    target (controls_at st' (controls v))
      = update_target (handed_over (source_spherical (controls source) st) v st).
Proof.
  intros (Hcams & Hctls & Hobj) Hs Hv Hne.
  eexists. split; [by apply syncCameras_total|].
  destruct (sync_loop_result (controls source) (source_spherical (controls source) st)
              (allViewers st) v (set_isSyncing true st) Hcams Hctls Hobj Hv Hne) as [Hc Hk].
  split.
  - exact Hc.
  - change (controls_at (set_isSyncing false ?p) ?r) with (controls_at p r).
    cbn [allViewers set_isSyncing] in Hk |- *. by rewrite Hk.
Qed.


End Others.


(** Rounding alone breaks the equality.  With the stand-in library, whose
    [update] moves nothing, let the second viewer's target sit at height
    [1e16]: the source's height [1.5] added to it and subtracted again
    comes back as [2]. *)
Example rounding_breaks_offsets :
  well_formed (modify_controls (set_target (mkVector3 0 1e16 0)) 11 demo_page) ∧
  ∃ st', syncCameras (H := test_three) 2 6
           (modify_controls (set_target (mkVector3 0 1e16 0)) 11 demo_page) = Some st' ∧
    source_spherical (H := test_three) 6 st' = mkSpherical 0 1.5 3 ∧
    source_spherical (H := test_three) 11 st' = mkSpherical 0 2 3.
Proof.
  split.
  - repeat split.
    + vm_compute. apply (bool_decide_unpack _). vm_compute. reflexivity.
    + vm_compute. apply (bool_decide_unpack _). vm_compute. reflexivity.
    + apply (bool_decide_unpack _). vm_compute. reflexivity.
  - eexists. split; [vm_compute; reflexivity|]. split; vm_compute; reflexivity.
Qed.


(** ** The script on the demonstration page *)

Section Script_demo.
#[local] Existing Instance test_three.
#[local] Existing Instance test_engine.

Example demo_page_loaded :
  DOMContentLoaded demo_document = Returned demo_page ∧
  allViewers demo_page = new_group 0 ∧
  load_scale <$> loads demo_page = [Num 1.2%float; Num 1.2%float; Num 1.2%float] ∧
  viewers_container (document demo_page)
    = Some (mkMarkup "« Modern chair with slatted back »" "« Baby pacifier with handle »"
                     0 1 2).
Proof.
  split; [vm_compute; reflexivity|]. split; [vm_compute; reflexivity|].
  split; vm_compute; reflexivity.
Qed.

(** A sample without a tab: the old group is cleared, then the handler
    throws. *)
Example demo_page_unknown_sample :
  ∃ st, loadTab (Some "example_4") demo_page = Threw st ∧ allViewers st = [] ∧
        Forall (λ v, disposed (renderer_at st (renderer v)) = true) (allViewers demo_page).
Proof.
  exists (clearViewers demo_page).
  split; [apply loadTab_throws; intros element Hq; vm_compute in Hq; discriminate Hq|].
  split; [apply clearViewers_empties|apply clearViewers_disposes].
Qed.

(** A name that is not a sample but a property of [Object.prototype], on
    a page with an element for it: the loads carry the inherited function
    as their scale and both captions read [undefined]. *)
Example inherited_sample :
  ∃ st', loadTab (Some "toString")
           (initial (mkDocument [mkTabButton true (Some "toString") (Some "t/cond.glb")
                                             (Some "t/g1.glb") (Some "t/g2.glb") false]
                                None "Rotate: On" "Pause" []))
         = Returned st' ∧
    load_scale <$> loads st'
      = [Inherited "toString"; Inherited "toString"; Inherited "toString"] ∧
    viewers_container (document st') = Some (mkMarkup "undefined" "undefined" 0 1 2).
Proof.
  eexists. split; [vm_compute; reflexivity|]. split; vm_compute; reflexivity.
Qed.

(** A name with a backslash in it is not plain: the selector is the
    engine's business, whatever elements the page has; the stand-in engine
    rejects it and the switch throws. *)
Example backslash_sample d :
  plain "a\z" = false ∧ loadTab (Some "a\z") (initial d) = Threw (initial d).
Proof. split; reflexivity. Qed.

(** Re-entrancy is exercised: with the stand-in library every [update]
    dispatches ['change'], so while two viewers are held the pass calls
    itself from inside its loop.  One unit of fuel does not cover that
    call, two do, and the nested call changes nothing. *)
Example demo_page_reentrant_pass :
  syncCameras (H := test_three) 1 6 (mousedown 11 (mousedown 6 demo_page)) = None ∧
  ∃ st', syncCameras (H := test_three) 2 6 (mousedown 11 (mousedown 6 demo_page)) = Some st' ∧
         isSyncing st' = false ∧
         position (camera_at st' 9) = mkVector3 0 1.5 3.
Proof.
  split; [vm_compute; reflexivity|].
  eexists. split; [vm_compute; reflexivity|].
  split; vm_compute; reflexivity.
Qed.

(** A rotate click during a pause, step by step. *)
Example demo_page_paused_rotate :
  all_autoRotate false (clicks [PauseClick] demo_page) ∧
  all_autoRotate false (clicks [PauseClick; RotateClick] demo_page) ∧
  all_autoRotate true (clicks [PauseClick; RotateClick; RotateClick] demo_page) ∧
  btn_pause (document (clicks [PauseClick; RotateClick; RotateClick] demo_page)) = "Play" ∧
  btn_rotate (document (clicks [PauseClick; RotateClick; RotateClick] demo_page)) = "Rotate: On".
Proof.
  split; [apply (bool_decide_unpack _); vm_compute; reflexivity|].
  split; [apply (bool_decide_unpack _); vm_compute; reflexivity|].
  split; [apply (bool_decide_unpack _); vm_compute; reflexivity|].
  split; vm_compute; reflexivity.
Qed.
End Script_demo.

(** * Further properties *)

(** ** The drag gate *)

Lemma userIsInteracting_update_silent `{ThreeLib} c st r :
  userIsInteracting (controls_at (update_silent c st) r)
    = userIsInteracting (controls_at st r).
Proof.
  pose proof (update_silent_moves c st) as Hm.
  by rewrite (moves_targets _ _ _ _ Hm).
Qed.

Section Drag.
Context `{ThreeLib} `{SelectorEngine}.

(** X1.  [mouseup] clears the interaction flag of every controls object
    ever created and changes nothing else; after it the ['change']
    listener of any controls object returns the page as it is, with any
    amount of fuel, so no pass starts.  [mousedown] raises the flag of its
    own controls only, and the listener of those controls then runs
    [syncCameras] with them as source. *)
Theorem mouse_gates_propagation (fuel : nat) (c : ref) (st : Page) :
  (∀ r, controls_at (mouseup st) r = set_userIsInteracting false (controls_at st r)) ∧
  rest_of_page (mouseup st) = rest_of_page st ∧
  cameras (heap (mouseup st)) = cameras (heap st) ∧
  (∀ r, handle fuel (Changed r) (mouseup st) = Some (mouseup st)) ∧
  (∀ r, controls_at (mousedown c st) r
        = if decide (r = c) then set_userIsInteracting true (controls_at st c)
          else controls_at st r) ∧
  handle fuel (Changed c) (mousedown c st) = syncCameras fuel c (mousedown c st).
Proof.
  assert (Hup : ∀ r, controls_at (mouseup st) r
                     = set_userIsInteracting false (controls_at st r)).
  { intros r. unfold controls_at, mouseup. cbn [heap set_heap orbits set_orbits].
    rewrite !lookup_total_alt, lookup_fmap. by destruct (orbits (heap st) !! r). }
  split; [exact Hup|]. split; [done|]. split; [done|]. split; [|split].
  - intros r. cbn [handle]. unfold on_change. by rewrite Hup.
  - intros r. destruct (decide (r = c)) as [->|Hne].
    + unfold mousedown. by rewrite controls_at_modify_eq.
    + unfold mousedown. by rewrite controls_at_modify_ne.
  - cbn [handle]. unfold on_change, mousedown. by rewrite controls_at_modify_eq.
Qed.

(** X2.  A pass in which the loop skips every viewer (the group is empty,
    or the source is its only viewer) returns the page unchanged; one unit
    of fuel is enough, since [update] is never called. *)
Theorem syncCameras_alone (fuel : nat) (sourceControls : ref) (st : Page) :
  Forall (λ v, controls v = sourceControls) (allViewers st) →
  syncCameras (S fuel) sourceControls st = Some st.
Proof.
  intros Hall. cbn [syncCameras]. destruct (isSyncing st) eqn:Hs; [done|].
  cbn [allViewers set_isSyncing].
  assert (Hloop : ∀ l p, Forall (λ v, controls v = sourceControls) l →
            forEachM (sync_viewer (on_change (syncCameras fuel)) sourceControls
                        (Spherical_setFromVector3
                           (Vector3_subVectors
                              (position (camera_at (set_isSyncing true st)
                                 (object (controls_at (set_isSyncing true st) sourceControls))))
                              (target (controls_at (set_isSyncing true st) sourceControls)))))
                     l p = Some p).
  { unfold forEachM. induction l as [|v l IH]; intros p Hl; [done|].
    apply Forall_cons in Hl as [Hv Hl]. cbn [foldl mbind option_bind].
    unfold sync_viewer at 2. rewrite decide_True by done. by apply IH. }
  rewrite Hloop by done. cbn [mbind option_bind]. by rewrite lower_raised_flag.
Qed.

(** X3.  While no viewer of the group is being dragged, a frame of
    [animate] is the library's [update] applied to each viewer in turn and
    nothing more: no listener starts a pass (no fuel is consumed), and the
    group is still idle afterwards. *)
Theorem animate_idle (fuel : nat) (st : Page) :
  idle st →
  animate fuel st = Some (forEach (λ v, update_silent (controls v)) (allViewers st) st) ∧
  idle (forEach (λ v, update_silent (controls v)) (allViewers st) st).
Proof.
  unfold idle, animate, forEachM, forEach.
  assert (Hgen : ∀ (l group : list Viewer) p,
            Forall (λ v, userIsInteracting (controls_at p (controls v)) = false) l →
            Forall (λ v, userIsInteracting (controls_at p (controls v)) = false) group →
            foldl (λ acc a, acc ≫= update (on_change (syncCameras fuel)) (controls a))
                  (Some p) l
              = Some (foldl (λ p a, update_silent (controls a) p) p l) ∧
            Forall (λ v, userIsInteracting
                           (controls_at (foldl (λ p a, update_silent (controls a) p) p l)
                                        (controls v)) = false) group).
  { induction l as [|v l IH]; intros group p Hl Hg; [done|].
    apply Forall_cons in Hl as [Hv Hl]. cbn [foldl mbind option_bind].
    assert (Hstep : update (on_change (syncCameras fuel)) (controls v) p
                    = Some (update_silent (controls v) p)).
    { unfold update. fold (update_silent (controls v) p).
      destruct (update_change _); [|done].
      unfold on_change. by rewrite userIsInteracting_update_silent, Hv. }
    rewrite Hstep. cbn [mbind option_bind]. apply IH.
    - eapply Forall_impl; [exact Hl|]. intros w Hw.
      by rewrite userIsInteracting_update_silent.
    - eapply Forall_impl; [exact Hg|]. intros w Hw.
      by rewrite userIsInteracting_update_silent. }
  intros Hidle.
  destruct (Hgen (allViewers st) (allViewers st) st Hidle Hidle) as [Hrun Hstill].
  split; [exact Hrun|].
  assert (Hsame : ∀ (l : list Viewer) p,
            allViewers (foldl (λ p a, update_silent (controls a) p) p l) = allViewers p).
  { induction l as [|v l IH]; intros p; [done|]. cbn [foldl]. by rewrite IH. }
  rewrite Hsame. exact Hstill.
Qed.
End Drag.

Lemma syncCameras_alone_witness :
  Forall (λ v, controls v = 6) (allViewers demo_lone_page) ∧
  syncCameras (H := test_three) 1 6 demo_lone_page = Some demo_lone_page.
Proof.
  split; [apply (bool_decide_unpack _); vm_compute; reflexivity|].
  apply (syncCameras_alone (H := test_three) 0 6).
  apply (bool_decide_unpack _). vm_compute. reflexivity.
Defined.

Lemma animate_idle_witness :
  idle demo_page ∧
  animate (H := test_three) 0 demo_page
    = Some (forEach (λ v, update_silent (H := test_three) (controls v))
                    (allViewers demo_page) demo_page).
Proof.
  split; [apply (bool_decide_unpack _); vm_compute; reflexivity|].
  apply (animate_idle (H := test_three) 0 demo_page).
  apply (bool_decide_unpack _). vm_compute. reflexivity.
Defined.

(** ** The success callback *)

(** X9.  The success callback of a load adds one model to the scene it
    closes over, scaled uniformly by the scale it closes over; in that model
    every mesh node casts and receives shadows and, if it has a material,
    has the plastic one, and every other node is as loaded.  It hides the
    loading indicator it closes over without changing its text.  Nothing
    else changes: the other scenes and elements, every camera, controls
    object and renderer, the group, the flags, the document and the
    loads. *)
Theorem load_onLoad_local (req : LoadRequest) (gltf_scene : Model) (st : Page) :
  scene_at (load_onLoad req gltf_scene st) (load_scene req)
    = mkScene (ground (scene_at st (load_scene req)))
              (models (scene_at st (load_scene req))
               ++ [mkModel (setScalar (load_scale req)) (shade <$> nodes gltf_scene)]) ∧
  Forall2 (λ child child',
             if isMesh child
             then isMesh child' = true ∧ castShadow child' = true ∧
                  receiveShadow child' = true ∧
                  material child' = (λ _, plastic) <$> material child
             else child' = child)
          (nodes gltf_scene) (shade <$> nodes gltf_scene) ∧
  element_at (load_onLoad req gltf_scene st) (load_loading req)
    = set_display "none" (element_at st (load_loading req)) ∧
  (∀ r, r ≠ load_scene req →
        scenes (heap (load_onLoad req gltf_scene st)) !! r = scenes (heap st) !! r) ∧
  (∀ r, r ≠ load_loading req →
        elems (heap (load_onLoad req gltf_scene st)) !! r = elems (heap st) !! r) ∧
  cameras (heap (load_onLoad req gltf_scene st)) = cameras (heap st) ∧
  orbits (heap (load_onLoad req gltf_scene st)) = orbits (heap st) ∧
  renderers (heap (load_onLoad req gltf_scene st)) = renderers (heap st) ∧
  next (heap (load_onLoad req gltf_scene st)) = next (heap st) ∧
  allViewers (load_onLoad req gltf_scene st) = allViewers st ∧
  isSyncing (load_onLoad req gltf_scene st) = isSyncing st ∧
  isRotating (load_onLoad req gltf_scene st) = isRotating st ∧
  isPaused (load_onLoad req gltf_scene st) = isPaused st ∧
  document (load_onLoad req gltf_scene st) = document st ∧
  loads (load_onLoad req gltf_scene st) = loads st.
Proof.
  unfold load_onLoad, scene_at, element_at, modify_element, modify_scene.
  cbn [heap set_heap scenes set_scenes elems set_elems].
  split; [by rewrite modify_total_eq|].
  split.
  { apply Forall2_fmap_r, Forall_Forall2_diag, Forall_forall. intros child _.
    unfold compose, shade. destruct child as [mesh cast receive mat].
    cbn [isMesh castShadow receiveShadow material].
    destruct mesh; [|done]. cbn [isMesh castShadow receiveShadow material].
    by destruct mat. }
  split; [by rewrite modify_total_eq|].
  split; [intros r Hr; apply modify_lookup_ne; congruence|].
  split; [intros r Hr; apply modify_lookup_ne; congruence|done].
Qed.

(** ** Clearing the group *)

(** X5.  [clearViewers] empties the group, disposes the renderers of the
    old group and no other, empties the containers of the old group and no
    other element, and leaves everything else: the cameras and controls of
    the discarded viewers included, which keep their state and listeners.
    Clearing twice is clearing once. *)
Theorem clearViewers_exact (st : Page) :
  allViewers (clearViewers st) = [] ∧
  (∀ r, renderer_at (clearViewers st) r
        = if bool_decide (r ∈ renderer <$> allViewers st)
          then mkRenderer true else renderer_at st r) ∧
  (∀ r, element_at (clearViewers st) r
        = if bool_decide (r ∈ container <$> allViewers st)
          then mkElement (className (element_at st r)) "" (display (element_at st r)) []
          else element_at st r) ∧
  cameras (heap (clearViewers st)) = cameras (heap st) ∧
  orbits (heap (clearViewers st)) = orbits (heap st) ∧
  scenes (heap (clearViewers st)) = scenes (heap st) ∧
  next (heap (clearViewers st)) = next (heap st) ∧
  isSyncing (clearViewers st) = isSyncing st ∧
  isRotating (clearViewers st) = isRotating st ∧
  isPaused (clearViewers st) = isPaused st ∧
  document (clearViewers st) = document st ∧
  loads (clearViewers st) = loads st ∧
  clearViewers (clearViewers st) = clearViewers st.
Proof.
  assert (Hidem : clearViewers (clearViewers st) = clearViewers st).
  { unfold clearViewers at 1. cbv zeta. rewrite clearViewers_empties.
    rewrite forEach_nil. by unfold clearViewers. }
  destruct (clearViewers_spec st) as (rm & em & Heq & Hrm & Hem).
  rewrite Hidem. rewrite Heq. unfold renderer_at, element_at.
  cbn [allViewers heap set_heap set_allViewers renderers elems set_elems set_renderers].
  split; [done|]. split; [exact Hrm|]. split; [exact Hem|]. done.
Qed.

(** X6.  A switch to a sample for which no element carries the [data-obj]
    throws, and it throws after the old group is gone: the group is empty,
    the renderers of the old group are disposed and its containers empty,
    while nothing has been allocated or loaded and the document (the tab
    highlighting included) and the flags are as before. *)
Theorem loadTab_missing_tab `{ThreeLib} `{SelectorEngine} (objName : option string)
    (st : Page) :
  (∀ element, querySelector_data_obj (text_of objName) (document st) ≠ Found element) →
  ∃ st', loadTab objName st = Threw st' ∧
    allViewers st' = [] ∧
    Forall (λ v, disposed (renderer_at st' (renderer v)) = true ∧
                 children (element_at st' (container v)) = [])
           (allViewers st) ∧
    document st' = document st ∧
    loads st' = loads st ∧
    next (heap st') = next (heap st) ∧
    isSyncing st' = isSyncing st ∧
    isRotating st' = isRotating st ∧
    isPaused st' = isPaused st.
Proof.
  intros Hq. exists (clearViewers st).
  destruct (clearViewers_rest st) as (Hsync & Hrot & Hpau & Hdoc & Hloads & Hnext & _).
  split.
  { unfold loadTab. cbv zeta. rewrite Hdoc.
    by destruct (querySelector_data_obj _ _) as [element| |]; [destruct (Hq element)| |]. }
  split; [apply clearViewers_empties|].
  split; [|done].
  destruct (clearViewers_spec st) as (rm & em & -> & Hrm & Hem).
  apply Forall_forall. intros v Hv. unfold renderer_at, element_at.
  cbn [heap set_heap set_allViewers renderers elems set_elems set_renderers].
  rewrite Hrm, Hem.
  rewrite !bool_decide_eq_true_2; [done| |]; by apply list_elem_of_fmap_2.
Qed.

Lemma loadTab_missing_tab_witness :
  querySelector_data_obj (H0 := test_engine) (text_of (Some "example_4")) (document demo_page)
    = Null ∧
  ∃ st', loadTab (H := test_three) (H0 := test_engine) (Some "example_4") demo_page
           = Threw st' ∧
         allViewers st' = [] ∧ document st' = document demo_page.
Proof.
  assert (Hq : querySelector_data_obj (H0 := test_engine) (text_of (Some "example_4"))
                 (document demo_page) = Null) by (vm_compute; reflexivity).
  split; [exact Hq|].
  destruct (loadTab_missing_tab (H := test_three) (H0 := test_engine)
              (Some "example_4") demo_page)
    as (st' & Hrun & Hgroup & _ & Hdoc & _).
  - intros element. rewrite Hq. discriminate.
  - exists st'. split; [exact Hrun|]. split; [exact Hgroup|exact Hdoc].
Defined.

(** ** The toggles, in full *)

(** X11.  A click on the rotate toggle flips the stored flag, writes the
    flipped flag into the controls of the viewers of the group and into no
    other controls object, and sets the toggle's label to ['Rotate: On'] or
    ['Rotate: Off'] accordingly.  A click on the pause toggle flips
    [isPaused], writes into the same controls [false] when pause goes on
    and the stored rotate flag when it goes off, and sets its label to
    ['Play'] or ['Pause'].  Neither moves a camera or a target, and neither
    changes the other toggle's label or variable, the group, the tabs, the
    markup, the console, the loads or the rest of the heap. *)
Theorem toggles_are_local (st : Page) :
  (isRotating (rotate_click st) = negb (isRotating st) ∧
   btn_rotate (document (rotate_click st))
     = (if negb (isRotating st) then "Rotate: On" else "Rotate: Off") ∧
   (∀ r, controls_at (rotate_click st) r
         = if bool_decide (r ∈ controls <$> allViewers st)
           then set_autoRotate (negb (isRotating st)) (controls_at st r)
           else controls_at st r) ∧
   isPaused (rotate_click st) = isPaused st ∧
   btn_pause (document (rotate_click st)) = btn_pause (document st) ∧
   rest_of_page (set_isRotating (isRotating st)
                   (set_document (document st) (rotate_click st)))
     = rest_of_page st ∧
   cameras (heap (rotate_click st)) = cameras (heap st) ∧
   tabButtons (document (rotate_click st)) = tabButtons (document st) ∧
   viewers_container (document (rotate_click st)) = viewers_container (document st) ∧
   console (document (rotate_click st)) = console (document st)) ∧
  (isPaused (pause_click st) = negb (isPaused st) ∧
   btn_pause (document (pause_click st)) = (if negb (isPaused st) then "Play" else "Pause") ∧
   (∀ r, controls_at (pause_click st) r
         = if bool_decide (r ∈ controls <$> allViewers st)
           then set_autoRotate (if isPaused st then isRotating st else false)
                               (controls_at st r)
           else controls_at st r) ∧
   isRotating (pause_click st) = isRotating st ∧
   btn_rotate (document (pause_click st)) = btn_rotate (document st) ∧
   rest_of_page (set_isPaused (isPaused st)
                   (set_document (document st) (pause_click st)))
     = rest_of_page st ∧
   cameras (heap (pause_click st)) = cameras (heap st) ∧
   tabButtons (document (pause_click st)) = tabButtons (document st) ∧
   viewers_container (document (pause_click st)) = viewers_container (document st) ∧
   console (document (pause_click st)) = console (document st)).
Proof.
  split.
  - unfold rotate_click. cbv zeta. rewrite assign_isRotating_loop. simpl.
    destruct (assign_autoRotate_spec (negb (isRotating st)) (allViewers st)
                (set_isRotating (negb (isRotating st)) st)) as (m & Hm & Hlook).
    rewrite Hm. unfold controls_at, rest_of_page.
    cbn [heap set_heap orbits set_orbits isRotating isPaused document set_document
         set_isRotating btn_rotate btn_pause set_btn_rotate tabButtons viewers_container
         console cameras set_cameras allViewers isSyncing loads renderers scenes elems next].
    split; [done|]. split; [done|]. split; [exact Hlook|].
    split; [done|]. split; [done|]. split; [by destruct st as [? ? ? ? [] ? ?]|done].
  - unfold pause_click. cbv zeta. simpl (isPaused (set_isPaused _ _)).
    destruct (isPaused st) eqn:Hp; simpl negb; cbv iota.
    + rewrite assign_isRotating_loop. simpl.
      destruct (assign_autoRotate_spec (isRotating st) (allViewers st)
                  (set_isPaused false st)) as (m & Hm & Hlook).
      rewrite Hm. unfold controls_at, rest_of_page.
      cbn [heap set_heap orbits set_orbits isRotating isPaused document set_document
           set_isPaused btn_rotate btn_pause set_btn_pause tabButtons viewers_container
           console cameras set_cameras allViewers isSyncing loads renderers scenes elems next].
      split; [done|]. split; [done|]. split; [exact Hlook|].
      split; [done|]. split; [done|].
      split; [destruct st as [? ? ? ? [] ? ?]; cbn in *; by subst|done].
    + change (allViewers (set_isPaused true st)) with (allViewers st).
      fold (assign_autoRotate false (allViewers st) (set_isPaused true st)).
      destruct (assign_autoRotate_spec false (allViewers st)
                  (set_isPaused true st)) as (m & Hm & Hlook).
      rewrite Hm. unfold controls_at, rest_of_page.
      cbn [heap set_heap orbits set_orbits isRotating isPaused document set_document
           set_isPaused btn_rotate btn_pause set_btn_pause tabButtons viewers_container
           console cameras set_cameras allViewers isSyncing loads renderers scenes elems next].
      split; [done|]. split; [done|]. split; [exact Hlook|].
      split; [done|]. split; [done|].
      split; [destruct st as [? ? ? ? [] ? ?]; cbn in *; by subst|done].
Qed.

(** ** The heap after a sample switch *)

Section Heap.
Context `{ThreeLib} `{SelectorEngine}.

Lemma loadTab_returns_heap objName st btn :
  querySelector_data_obj (text_of objName) (document st) = Found btn →
  let n := next (heap st) in
  ∃ st', loadTab objName st = Returned st' ∧
    document st'
      = set_viewers_container
          (Some (mkMarkup (label_text (labels_for (text_of objName)) 0)
                          (label_text (labels_for (text_of objName)) 1) n (1 + n) (2 + n)))
          (set_tabButtons (highlight objName <$> tabButtons (document st)) (document st)) ∧
    scene_at st' (3 + n) = mkScene false [] ∧
    scene_at st' (8 + n) = mkScene true [] ∧
    scene_at st' (13 + n) = mkScene true [] ∧
    Forall (λ v, camera_at st' (camera v)
                   = update_camera
                       (OrbitControls_new (camera v) (mkCamera (mkVector3 0 1.5 3) None)) ∧
                 controls_at st' (controls v)
                   = mkControls (camera v)
                       (update_target
                          (OrbitControls_new (camera v) (mkCamera (mkVector3 0 1.5 3) None)))
                       false false (isRotating st) 2 false)
           (new_group n) ∧
    (∀ r, r < n →
          camera_at st' r = camera_at st r ∧
          controls_at st' r = controls_at st r ∧
          scene_at st' r = scene_at st r ∧
          element_at st' r = element_at (clearViewers st) r).
Proof.
  intros Hq n. unfold loadTab. cbv zeta.
  destruct (clearViewers_rest st)
    as (Hsync & Hrot & Hpau & Hdoc & Hloads & Hnext & Hcams & Horb & Hscn).
  rewrite Hdoc, Hq.
  set (st1 := set_document _ (clearViewers st)).
  pose proof (write_markup_spec (labels_for (text_of objName)) st1) as Hm.
  destruct (write_markup (labels_for (text_of objName)) st1) as [m st2].
  cbv zeta in Hm. cbn [fst snd] in Hm.
  destruct Hm as (-> & Hm). cbn [condition_viewer gen1_viewer gen2_viewer].
  pose proof (initViewer_spec (next (heap st1)) (data_condition btn) false (scale_for (text_of objName)) st2) as Hc.
  destruct (initViewer (next (heap st1)) (data_condition btn) false (scale_for (text_of objName)) st2) as [c st3].
  cbv zeta in Hc. cbn [fst snd] in Hc. destruct Hc as (-> & Hc).
  pose proof (initViewer_spec (1 + next (heap st1)) (data_gen1 btn) true (scale_for (text_of objName)) st3) as Hg1.
  destruct (initViewer (1 + next (heap st1)) (data_gen1 btn) true (scale_for (text_of objName)) st3) as [g1 st4].
  cbv zeta in Hg1. cbn [fst snd] in Hg1. destruct Hg1 as (-> & Hg1).
  pose proof (initViewer_spec (2 + next (heap st1)) (data_gen2 btn) true (scale_for (text_of objName)) st4) as Hg2.
  destruct (initViewer (2 + next (heap st1)) (data_gen2 btn) true (scale_for (text_of objName)) st4) as [g2 st5].
  cbv zeta in Hg2. cbn [fst snd] in Hg2. destruct Hg2 as (-> & Hg2).
  destruct Hm as (Hm_all & Hm_sync & Hm_rot & Hm_pau & Hm_doc & Hm_loads & Hm_next
                  & Hm_cams & Hm_orb & Hm_rend & Hm_scn & Hm_el).
  destruct Hc as (Hc_all & Hc_sync & Hc_rot & Hc_pau & Hc_doc & Hc_loads & Hc_next
                  & Hc_cams & Hc_orb & Hc_rend & Hc_scn & Hc_el).
  destruct Hg1 as (H1_all & H1_sync & H1_rot & H1_pau & H1_doc & H1_loads & H1_next
                  & H1_cams & H1_orb & H1_rend & H1_scn & H1_el).
  destruct Hg2 as (H2_all & H2_sync & H2_rot & H2_pau & H2_doc & H2_loads & H2_next
                  & H2_cams & H2_orb & H2_rend & H2_scn & H2_el).
  assert (Hn1 : next (heap st1) = n) by exact Hnext.
  rewrite Hn1 in *. rewrite Hm_next in *. rewrite Hc_next in *. rewrite H1_next in *.
  cbn [Nat.add] in *.
  set (group := [_; _; _]).
  set (st6 := set_allViewers group st5).
  change (allViewers st6) with group.
  rewrite assign_isRotating_loop.
  pose proof (assign_autoRotate_all (isRotating st6) st6) as Hall.
  change (allViewers st6) with group in Hall.
  destruct (assign_autoRotate_spec (isRotating st6) group st6) as (m & Hfin & Hlook).
  rewrite Hfin in *. clear Hfin.
  assert (Hrot6 : isRotating st6 = isRotating st).
  { change (isRotating st6) with (isRotating st5).
    rewrite H2_rot, H1_rot, Hc_rot, Hm_rot. exact Hrot. }
  rewrite Hrot6 in *.
  eexists. split; [reflexivity|].
  split. { cbn [document set_heap set_allViewers st6].
           rewrite H2_doc, H1_doc, Hc_doc, Hm_doc. unfold st1.
           cbn [document set_document]. reflexivity. }
  unfold scene_at, camera_at, controls_at, element_at.
  cbn [heap set_heap orbits set_orbits scenes cameras elems].
  change (scenes (heap st6)) with (scenes (heap st5)).
  change (cameras (heap st6)) with (cameras (heap st5)).
  change (elems (heap st6)) with (elems (heap st5)).
  change (orbits (heap st6)) with (orbits (heap st5)) in Hlook.
  rewrite H2_scn, H1_scn, Hc_scn, Hm_scn.
  rewrite H2_cams, H1_cams, Hc_cams, Hm_cams.
  rewrite H2_el, H1_el, Hc_el, Hm_el.
  rewrite H2_orb, H1_orb, Hc_orb, Hm_orb in Hlook.
  change (scenes (heap st1)) with (scenes (heap (clearViewers st))).
  change (cameras (heap st1)) with (cameras (heap (clearViewers st))).
  change (elems (heap st1)) with (elems (heap (clearViewers st))).
  change (orbits (heap st1)) with (orbits (heap (clearViewers st))) in Hlook.
  rewrite Hscn, Hcams. rewrite Horb in Hlook.
  split; [by heap_lookup|]. split; [by heap_lookup|]. split; [by heap_lookup|].
  split.
  - unfold new_group. cbn [Nat.add].
    repeat (apply Forall_cons_2 || apply Forall_nil_2); cbn [camera controls];
      (split; [by heap_lookup|]); rewrite Hlook; subst group;
      cbn [fmap list_fmap controls].
    + rewrite bool_decide_eq_true_2 by (rewrite !elem_of_cons; auto). by heap_lookup.
    + rewrite bool_decide_eq_true_2 by (rewrite !elem_of_cons; auto). by heap_lookup.
    + rewrite bool_decide_eq_true_2 by (rewrite !elem_of_cons; auto). by heap_lookup.
  - intros r Hr. split; [by heap_lookup|]. split; [|split; by heap_lookup].
    rewrite Hlook. subst group. cbn [fmap list_fmap controls].
    rewrite bool_decide_eq_false_2 by (rewrite !elem_of_cons, elem_of_nil; lia).
    by heap_lookup.
Qed.


Lemma querySelector_found name d element :
  plain name = true →
  querySelector_data_obj name d = Found element →
  ∃ before after, tabButtons d = before ++ element :: after ∧
    data_obj element = Some name ∧
    Forall (λ earlier, data_obj earlier ≠ Some name) before.
Proof.
  intros Hp. rewrite (querySelector_plain _ _ Hp).
  destruct (head _) as [first|] eqn:Hhead; [|done]. intros [= <-].
  by apply (head_filter_Some (λ e, data_obj e = Some name)) in Hhead.
Qed.

Lemma querySelector_exists name d element :
  plain name = true →
  element ∈ tabButtons d → data_obj element = Some name →
  ∃ first, querySelector_data_obj name d = Found first.
Proof.
  intros Hp Hin Hobj. rewrite (querySelector_plain _ _ Hp).
  destruct (head _) as [first|] eqn:Hhead; [by exists first|].
  apply (head_filter_None (λ e, data_obj e = Some name)) in Hhead.
  rewrite Forall_forall in Hhead. by destruct (Hhead element Hin).
Qed.

(** X7.  A switch that returns sets the highlight of every element of
    class [tab-button]: on where its [data-obj] is the switch's argument
    ([undefined] matching a tab without [data-obj]), off elsewhere.  The
    elements that only carry a [data-obj] are not touched, and no element
    changes otherwise; so some tab ends highlighted exactly if some tab
    carries the argument, whatever element the selector found.  The labels
    of the two toggles and the console stay as they are. *)
Theorem loadTab_highlights_tab (objName : option string) (st : Page) (tabButton : TabButton) :
  querySelector_data_obj (text_of objName) (document st) = Found tabButton →
  ∃ st', loadTab objName st = Returned st' ∧
    Forall2 (λ old new,
               tab_button new = tab_button old ∧
               data_obj new = data_obj old ∧
               data_condition new = data_condition old ∧
               data_gen1 new = data_gen1 old ∧
               data_gen2 new = data_gen2 old ∧
               if tab_button old
               then active new = true ↔ data_obj old = objName
               else active new = active old)
            (tabButtons (document st)) (tabButtons (document st')) ∧
    (Exists (λ b, tab_button b = true ∧ active b = true) (tabButtons (document st')) ↔
     Exists (λ b, tab_button b = true ∧ data_obj b = objName) (tabButtons (document st))) ∧
    btn_rotate (document st') = btn_rotate (document st) ∧
    btn_pause (document st') = btn_pause (document st) ∧
    console (document st') = console (document st).
Proof.
  intros Hq.
  destruct (loadTab_returns_heap objName st tabButton Hq) as (st' & Hrun & Hdoc & _).
  exists st'. split; [exact Hrun|]. rewrite Hdoc.
  cbn [tabButtons btn_rotate btn_pause console set_viewers_container set_tabButtons].
  split; [|split; [|done]].
  - apply Forall2_fmap_r, Forall_Forall2_diag, Forall_forall. intros b _.
    unfold compose, highlight. destruct (tab_button b) eqn:Hb; [|by rewrite Hb].
    cbn [tab_button data_obj data_condition data_gen1 data_gen2 active set_active].
    rewrite Hb. repeat (split; [done|]). apply bool_decide_eq_true.
  - rewrite Exists_fmap. apply Exists_proper; [|done]. intros b.
    unfold compose, highlight. destruct (tab_button b) eqn:Hb.
    + cbn [tab_button active set_active]. rewrite Hb, bool_decide_eq_true. done.
    + rewrite Hb. split; by intros [? _].
Qed.

(** X8.  A switch that returns issues its three loads for the paths in
    [data-condition], [data-gen1] and [data-gen2] of the element it found,
    in that order, one into the scene of each new viewer in group order; a
    missing attribute is passed on as [undefined]; the scale they carry is
    truthy (a number other than [0] and [NaN], or an inherited function or
    object).  The scenes start without models, and only the two generation
    viewers get a ground plane.  Every new camera is what the constructor
    of its controls, which ends with [update()], made of a camera placed at
    [(0, 1.5, 3)]; every new controls object drives its viewer's camera
    about the target that constructor left, with pan and zoom disabled,
    auto-rotate at the stored rotate flag and speed [2], and is not
    flagged as dragged. *)
Theorem loadTab_fresh_viewers (objName : option string) (st : Page) (tabButton : TabButton) :
  querySelector_data_obj (text_of objName) (document st) = Found tabButton →
  ∃ st' reqs, loadTab objName st = Returned st' ∧
    loads st' = loads st ++ reqs ∧
    glbPath <$> reqs
      = [data_condition tabButton; data_gen1 tabButton; data_gen2 tabButton] ∧
    load_scene <$> reqs = scene <$> allViewers st' ∧
    Forall (λ req, Value_truthy (load_scale req) = true) reqs ∧
    (λ v, ground (scene_at st' (scene v))) <$> allViewers st' = [false; true; true] ∧
    Forall (λ v, models (scene_at st' (scene v)) = []) (allViewers st') ∧
    Forall (λ v, camera_at st' (camera v)
                   = update_camera
                       (OrbitControls_new (camera v) (mkCamera (mkVector3 0 1.5 3) None)) ∧
                 controls_at st' (controls v)
                   = mkControls (camera v)
                       (update_target
                          (OrbitControls_new (camera v) (mkCamera (mkVector3 0 1.5 3) None)))
                       false false (isRotating st) 2 false)
           (allViewers st').
Proof.
  intros Hq.
  destruct (loadTab_returns objName st tabButton Hq) as (st' & Hrun & Hgroup & Hloads & _).
  destruct (loadTab_returns_heap objName st tabButton Hq)
    as (st2 & Hrun2 & _ & Hs1 & Hs2 & Hs3 & Hnew & _).
  rewrite Hrun in Hrun2. injection Hrun2 as <-.
  exists st', (new_loads tabButton (scale_for (text_of objName)) (next (heap st))).
  split; [exact Hrun|]. split; [exact Hloads|]. rewrite Hgroup.
  unfold new_loads, new_group. cbn [fmap list_fmap glbPath load_scene scene].
  split; [done|]. split; [done|].
  split; [repeat (apply Forall_cons_2 || apply Forall_nil_2); apply scale_for_truthy|].
  rewrite Hs1, Hs2, Hs3. cbn [ground models].
  split; [done|]. split; [|exact Hnew].
  repeat (apply Forall_cons_2 || apply Forall_nil_2); cbn [scene];
    by rewrite ?Hs1, ?Hs2, ?Hs3.
Qed.
End Heap.

Section Heap_demo.
#[local] Existing Instance test_engine.

Lemma loadTab_highlights_tab_witness :
  ∃ st', loadTab (H := turning_three) (Some "example_2") demo_page = Returned st' ∧
         Exists (λ b, tab_button b = true ∧ active b = true) (tabButtons (document st')) ∧
         btn_rotate (document st') = "Rotate: On".
Proof.
  destruct (loadTab_highlights_tab (H := turning_three) (Some "example_2") demo_page
              demo_example_2)
    as (st' & Hrun & _ & Hsome & Hlabel & _).
  - vm_compute. reflexivity.
  - exists st'. split; [exact Hrun|]. split; [|exact Hlabel].
    apply Hsome, Exists_exists. exists demo_example_2. split; [|by split].
    vm_compute. apply list_elem_of_further, list_elem_of_here.
Defined.

(** With a library whose constructor turns the camera towards the target,
    the new cameras are no longer the cameras the script placed. *)
Lemma loadTab_fresh_viewers_witness :
  ∃ st' reqs, loadTab (H := turning_three) (Some "example_9") demo_page = Returned st' ∧
    loads st' = loads demo_page ++ reqs ∧
    glbPath <$> reqs = [Some "d/cond.glb"; None; Some "d/g2.glb"] ∧
    (λ v, ground (scene_at st' (scene v))) <$> allViewers st' = [false; true; true] ∧
    Forall (λ v, lookAt (camera_at st' (camera v)) = Some (mkVector3 0 0 0))
           (allViewers st').
Proof.
  destruct (loadTab_fresh_viewers (H := turning_three) (Some "example_9") demo_page
              demo_example_9)
    as (st' & reqs & Hrun & Hloads & Hpaths & _ & _ & Hground & _ & Hnew).
  - vm_compute. reflexivity.
  - exists st', reqs. split; [exact Hrun|]. split; [exact Hloads|].
    split; [exact Hpaths|]. split; [exact Hground|].
    eapply Forall_impl; [exact Hnew|]. intros v [-> _]. reflexivity.
Defined.
End Heap_demo.

(** ** Callbacks that arrive late *)

(** X10.  A callback of a load issued before a sample switch, arriving
    after the switch has returned, touches nothing of the new group: its
    scenes, containers and loading indicators, every camera, controls
    object and renderer, the group and the markup are as the switch left
    them, whether the late load succeeded or failed. *)
Theorem late_callback_harmless `{ThreeLib} `{SelectorEngine} (objName : option string)
    (st st' : Page) (req : LoadRequest) (gltf_scene : Model) (err : string) :
  loadTab objName st = Returned st' →
  load_scene req < next (heap st) → load_loading req < next (heap st) →
  Forall (λ late,
            Forall (λ v, scene_at late (scene v) = scene_at st' (scene v) ∧
                         element_at late (container v) = element_at st' (container v) ∧
                         element_at late (4 + scene v) = element_at st' (4 + scene v))
                   (allViewers st') ∧
            cameras (heap late) = cameras (heap st') ∧
            orbits (heap late) = orbits (heap st') ∧
            renderers (heap late) = renderers (heap st') ∧
            allViewers late = allViewers st' ∧
            viewers_container (document late) = viewers_container (document st'))
         [load_onLoad req gltf_scene st'; load_onError req err st'].
Proof.
  intros Hrun Hscene Hloading.
  destruct (loadTab_well_formed _ _ _ Hrun) as (Hgroup & _).
  rewrite Hgroup. unfold new_group.
  repeat (apply Forall_cons_2 || apply Forall_nil_2); (split; [|done]).
  - unfold load_onLoad, scene_at, element_at, modify_element, modify_scene.
    cbn [heap set_heap scenes set_scenes elems set_elems].
    repeat (apply Forall_cons_2 || apply Forall_nil_2); cbn [scene container];
      (split; [|split]); apply modify_total_ne; lia.
  - unfold load_onError, scene_at, element_at, modify_element.
    cbn [heap set_heap scenes elems set_elems].
    repeat (apply Forall_cons_2 || apply Forall_nil_2); cbn [scene container];
      (split; [done|split]); apply modify_total_ne; lia.
Qed.

Section Late_demo.
#[local] Existing Instance test_three.
#[local] Existing Instance test_engine.

Lemma late_callback_harmless_witness :
  loadTab (Some "example_2") demo_page
    = Returned (page_of (loadTab (Some "example_2") demo_page)) ∧
  3 < next (heap demo_page) ∧ 7 < next (heap demo_page) ∧
  scene_at (load_onError (mkLoad (Some "a/cond.glb") 3 (Num 1.2) 7) "404"
              (page_of (loadTab (Some "example_2") demo_page))) 21
    = scene_at (page_of (loadTab (Some "example_2") demo_page)) 21.
Proof.
  split; [vm_compute; reflexivity|].
  split; [vm_compute; lia|]. split; [vm_compute; lia|].
  pose proof (late_callback_harmless (Some "example_2") demo_page
                (page_of (loadTab (Some "example_2") demo_page))
                (mkLoad (Some "a/cond.glb") 3 (Num 1.2) 7)
                (mkModel (setScalar (Num 1)) []) "404") as Hlate.
  assert (Hrun : loadTab (Some "example_2") demo_page
                 = Returned (page_of (loadTab (Some "example_2") demo_page)))
    by (vm_compute; reflexivity).
  assert (H3 : 3 < next (heap demo_page)) by (vm_compute; lia).
  assert (H7 : 7 < next (heap demo_page)) by (vm_compute; lia).
  specialize (Hlate Hrun H3 H7).
  apply Forall_cons in Hlate as [_ Hlate]. apply Forall_cons in Hlate as [[Hviewers _] _].
  assert (Hgroup : allViewers (page_of (loadTab (Some "example_2") demo_page)) = new_group 18)
    by (vm_compute; reflexivity).
  rewrite Hgroup in Hviewers. apply Forall_cons in Hviewers as [(Hs & _) _].
  exact Hs.
Defined.
End Late_demo.

(** ** Start-up and tab clicks *)

Section Startup.
Context `{ThreeLib} `{SelectorEngine}.

(** X14.  On a page with an element for [example_1], the
    [DOMContentLoaded] handler returns with the group of three built from
    the first references, every viewer auto-rotating, pause off, the three
    loads scaled by [1.2] and the captions of [example_1].  On a page
    without one, the handler throws and the page is as it was found. *)
Theorem DOMContentLoaded_outcome (d : Document) :
  match querySelector_data_obj "example_1" d with
  | Found tabButton =>
      ∃ st, DOMContentLoaded d = Returned st ∧
        allViewers st = new_group 0 ∧
        all_autoRotate true st ∧
        isRotating st = true ∧ isPaused st = false ∧ isSyncing st = false ∧
        loads st = new_loads tabButton (Num 1.2%float) 0 ∧
        viewers_container (document st)
          = Some (mkMarkup "« Modern chair with slatted back »"
                           "« Baby pacifier with handle »" 0 1 2)
  | Null | SyntaxError => DOMContentLoaded d = Threw (initial d)
  end.
Proof.
  destruct (querySelector_data_obj "example_1" d) as [btn| |] eqn:Hq.
  - destruct (loadTab_returns (Some "example_1") (initial d) btn Hq)
      as (st & Hrun & Hgroup & Hloads & Hdoc & Hsync & Hrot & Hpau & _ & Hall & _).
    exists st. split; [exact Hrun|]. split; [exact Hgroup|].
    split; [exact Hall|]. split; [exact Hrot|]. split; [exact Hpau|].
    split; [exact Hsync|]. split; [exact Hloads|exact Hdoc].
  - unfold DOMContentLoaded. apply loadTab_throws. intros element.
    change (text_of (Some "example_1")) with "example_1".
    change (document (initial d)) with d. by rewrite Hq.
  - unfold DOMContentLoaded. apply loadTab_throws. intros element.
    change (text_of (Some "example_1")) with "example_1".
    change (document (initial d)) with d. by rewrite Hq.
Qed.

(** X15.  A click on a tab whose [data-obj] is a plain name never throws:
    the switch finds an element with that [data-obj].  The element it
    finds is the first such element of the page, tab or not, and it is
    that element's paths the three loads are issued for, whichever tab was
    clicked; the clicked tab ends highlighted. *)
Theorem tab_click_first_match (i : nat) (btn : TabButton) (name : string) (st : Page) :
  tabButtons (document st) !! i = Some btn → tab_button btn = true →
  data_obj btn = Some name → plain name = true →
  ∃ st' first before after,
    tab_click btn st = Returned st' ∧ click (TabClick i) st = st' ∧
    querySelector_data_obj name (document st) = Found first ∧
    tabButtons (document st) = before ++ first :: after ∧
    data_obj first = Some name ∧
    Forall (λ earlier, data_obj earlier ≠ Some name) before ∧
    glbPath <$> drop (length (loads st)) (loads st')
      = [data_condition first; data_gen1 first; data_gen2 first] ∧
    tabButtons (document st') !! i = Some (set_active true btn).
Proof.
  intros Hi Htab Hobj Hp.
  assert (Hin : btn ∈ tabButtons (document st)) by (by eapply list_elem_of_lookup_2).
  destruct (querySelector_exists name (document st) btn Hp Hin Hobj) as (first & Hq).
  assert (Hq' : querySelector_data_obj (text_of (Some name)) (document st) = Found first)
    by exact Hq.
  destruct (loadTab_returns (Some name) st first Hq') as (st' & Hrun & _ & Hloads & _).
  destruct (loadTab_returns_heap (Some name) st first Hq') as (st2 & Hrun2 & Hdoc & _).
  rewrite Hrun in Hrun2. injection Hrun2 as <-.
  destruct (querySelector_found _ _ _ Hp Hq) as (before & after & Hsplit & Hname & Hfirst).
  exists st', first, before, after. unfold tab_click. cbn [click]. rewrite Hi, Htab.
  unfold tab_click. rewrite Hobj, Hrun. cbn [page_of].
  split; [done|]. split; [done|]. split; [exact Hq|]. split; [exact Hsplit|].
  split; [exact Hname|]. split; [exact Hfirst|].
  split; [by rewrite Hloads, drop_app_length|].
  rewrite Hdoc. cbn [tabButtons set_viewers_container set_tabButtons].
  rewrite list_lookup_fmap, Hi. cbn [fmap option_fmap option_map]. unfold highlight.
  rewrite Htab. by rewrite bool_decide_eq_true_2.
Qed.
End Startup.

Section Startup_demo.
#[local] Existing Instance test_three.
#[local] Existing Instance test_engine.

Lemma tab_click_first_match_witness :
  tabButtons (document demo_page) !! 1 = Some demo_example_2 ∧
  tab_button demo_example_2 = true ∧
  data_obj demo_example_2 = Some "example_2" ∧ plain "example_2" = true ∧
  ∃ st' first, tab_click demo_example_2 demo_page = Returned st' ∧
    click (TabClick 1) demo_page = st' ∧
    querySelector_data_obj "example_2" (document demo_page) = Found first ∧
    glbPath <$> drop (length (loads demo_page)) (loads st')
      = [data_condition first; data_gen1 first; data_gen2 first].
Proof.
  assert (Hi : tabButtons (document demo_page) !! 1 = Some demo_example_2)
    by (vm_compute; reflexivity).
  split; [exact Hi|]. split; [reflexivity|]. split; [reflexivity|]. split; [reflexivity|].
  destruct (tab_click_first_match 1 demo_example_2 "example_2" demo_page Hi eq_refl
              eq_refl eq_refl)
    as (st' & first & before & after & Hrun & Hclick & Hq & _ & _ & _ & Hpaths & _).
  exists st', first. split; [exact Hrun|]. split; [exact Hclick|].
  split; [exact Hq|exact Hpaths].
Defined.
End Startup_demo.

(** ** What every reachable page satisfies *)

Lemma quiet_step_settled st st' : quiet_step st st' → settled st → settled st'.
Proof.
  intros (Hall & Hrot & Hpau & Hloads & Hnext & Hauto) (Hshape & Halloc & Hflags).
  assert (Hsame : ∀ b, all_autoRotate b st → all_autoRotate b st').
  { intros b Hb. unfold all_autoRotate in *. rewrite Hall.
    eapply Forall_impl; [exact Hb|]. intros v Hv. by rewrite Hauto. }
  split; [|split].
  - unfold group_shape. by rewrite Hall, Hnext.
  - unfold loads_allocated. by rewrite Hloads, Hnext.
  - unfold flags_follow. rewrite Hrot, Hpau. destruct Hflags as [Hf|[Hp Hf]].
    + left. by apply Hsame.
    + right. split; [done|by apply Hsame].
Qed.

Lemma moves_only_quiet C K st st' : moves_only C K st st' → quiet_step st st'.
Proof.
  intros Hm. pose proof (moves_rest _ _ _ _ Hm) as Hr.
  split; [by apply (f_equal allViewers) in Hr|].
  split; [by apply (f_equal isRotating) in Hr|].
  split; [by apply (f_equal isPaused) in Hr|].
  split; [by apply (f_equal loads) in Hr|].
  split; [by apply (f_equal (λ p, next (heap p))) in Hr|].
  intros r. by rewrite (moves_targets _ _ _ _ Hm).
Qed.

Lemma quiet_step_refl st : quiet_step st st.
Proof. by repeat split. Qed.

Lemma quiet_step_trans st1 st2 st3 :
  quiet_step st1 st2 → quiet_step st2 st3 → quiet_step st1 st3.
Proof.
  intros (Ha & Hr & Hp & Hl & Hn & Hf) (Ha' & Hr' & Hp' & Hl' & Hn' & Hf').
  repeat split; congruence.
Qed.

Section Reachable.
Context `{ThreeLib} `{SelectorEngine}.

Lemma loadTab_settled objName st :
  loads_allocated st → settled (page_of (loadTab objName st)).
Proof.
  intros Halloc.
  assert (Hthrown : settled (clearViewers st)).
  { destruct (clearViewers_rest st) as (_ & _ & _ & _ & Hloads & Hnext & _).
    split; [|split].
    + left. apply clearViewers_empties.
    + unfold loads_allocated. by rewrite Hloads, Hnext.
    + left. unfold all_autoRotate. rewrite clearViewers_empties. constructor. }
  destruct (querySelector_data_obj (text_of objName) (document st)) as [btn| |] eqn:Hq;
    [|rewrite loadTab_throws by (by rewrite Hq); exact Hthrown..].
  - destruct (loadTab_returns objName st btn Hq)
      as (st' & -> & Hgroup & Hloads & _ & _ & Hrot & _ & Hnext & Hall & _).
    cbn [page_of]. split; [|split].
    + right. exists (next (heap st)). by rewrite Hnext.
    + unfold loads_allocated in *. rewrite Hloads, Hnext. apply Forall_app_2.
      * eapply Forall_impl; [exact Halloc|]. intros req [? ?]. split; lia.
      * unfold new_loads.
        repeat (apply Forall_cons_2 || apply Forall_nil_2);
          cbn [load_scene load_loading]; lia.
    + left. by rewrite Hrot.
Qed.

Lemma click_settled c st : settled st → settled (click c st).
Proof.
  intros Hset. destruct c as [i| |]; cbn [click].
  - destruct (tabButtons (document st) !! i) as [btn|]; [|done].
    destruct (tab_button btn); [|done].
    unfold tab_click. apply loadTab_settled. by destruct Hset as (_ & ? & _).
  - destruct Hset as (Hshape & Halloc & _).
    destruct (rotate_click_spec st) as (m & d & Heq & _ & Hall).
    destruct (rotate_click_variables st) as (Hrot & _).
    split; [|split].
    + unfold group_shape. by rewrite Heq.
    + unfold loads_allocated. by rewrite Heq.
    + left. by rewrite Hrot.
  - destruct Hset as (Hshape & Halloc & _).
    destruct (pause_click_spec st) as (m & d & Heq & _ & Hall).
    destruct (pause_click_variables st) as (Hpau & Hrot & _).
    split; [|split].
    + unfold group_shape. by rewrite Heq.
    + unfold loads_allocated. by rewrite Heq.
    + unfold flags_follow. rewrite Hrot, Hpau. destruct (isPaused st).
      * by left.
      * by right.
Qed.

(** A listener other than a click handler leaves the group, the stored
    flags and every auto-rotate flag alone. *)
Lemma handle_quiet fuel e st :
  isSyncing st = false → not_a_click e →
  ∃ st', handle (S (S fuel)) e st = Some st' ∧ quiet_step st st'.
Proof.
  intros Hs Hquiet.
  destruct e as [c|c| |c| |req g|req err]; cbn [handle]; [done|..].
  - eexists. split; [done|].
    repeat (split; [done|]). intros r. unfold mousedown, controls_at, modify_controls.
    cbn [heap set_heap orbits set_orbits]. by apply (modify_total_field autoRotate).
  - eexists. split; [done|].
    repeat (split; [done|]). intros r. unfold controls_at, mouseup.
    cbn [heap set_heap orbits set_orbits].
    rewrite !lookup_total_alt, lookup_fmap. by destruct (orbits (heap st) !! r).
  - destruct (on_change_at_rest fuel c st Hs) as (st2 & Hrun2 & _ & Hm).
    exists st2. split; [done|]. by eapply moves_only_quiet.
  - destruct (animate_at_rest fuel st Hs) as (st2 & Hrun2 & _ & Hm).
    exists st2. split; [done|]. by eapply moves_only_quiet.
  - eexists. split; [done|]. by repeat split.
  - eexists. split; [done|]. by repeat split.
Qed.

Lemma session_quiet fuel es st :
  at_rest st → Forall not_a_click es →
  ∃ st', session (S (S fuel)) es st = Some st' ∧ at_rest st' ∧ quiet_step st st'.
Proof.
  unfold session. revert st. induction es as [|e es IH]; intros st Hrest Hquiet.
  - exists st. split; [done|]. split; [done|apply quiet_step_refl].
  - apply Forall_cons in Hquiet as [He Hes]. cbn [foldl mbind option_bind].
    pose proof Hrest as (Hs & _).
    destruct (handle_quiet fuel e st Hs He) as (st1 & Hrun & Hstep).
    destruct (handle_at_rest fuel e st Hrest) as (st1' & Hrun' & Hrest1).
    rewrite Hrun in Hrun'. injection Hrun' as <-. rewrite Hrun.
    destruct (IH st1 Hrest1 Hes) as (st' & Hrun' & Hrest' & Hstep').
    exists st'. split; [done|]. split; [done|]. by eapply quiet_step_trans.
Qed.

Lemma handle_settled fuel e st st' :
  isSyncing st = false → handle (S (S fuel)) e st = Some st' →
  settled st → settled st'.
Proof.
  intros Hs Hrun Hset.
  destruct e as [c|c| |c| |req g|req err];
    try (match type of Hrun with
         | handle _ ?e _ = _ =>
             destruct (handle_quiet fuel e st Hs I) as (st2 & Hrun2 & Hstep)
         end;
         rewrite Hrun in Hrun2; injection Hrun2 as <-;
         by apply (quiet_step_settled st)).
  cbn [handle] in Hrun. injection Hrun as <-. by apply click_settled.
Qed.

Lemma session_settled fuel es st :
  at_rest st → settled st →
  ∃ st', session (S (S fuel)) es st = Some st' ∧ at_rest st' ∧ settled st'.
Proof.
  unfold session. revert st. induction es as [|e es IH]; intros st Hrest Hset.
  - by exists st.
  - cbn [foldl mbind option_bind].
    destruct (handle_at_rest fuel e st Hrest) as (st1 & Hrun & Hrest1).
    pose proof Hrest as (Hs & _).
    pose proof (handle_settled fuel e st st1 Hs Hrun Hset) as Hset1.
    rewrite Hrun. by apply IH.
Qed.

Lemma loaded_settled d : settled (page_of (DOMContentLoaded d)).
Proof. unfold DOMContentLoaded. apply loadTab_settled. constructor. Qed.

(** X12.  Whatever listeners run after [DOMContentLoaded], in whatever
    order, they all run to completion, and on the page they leave the
    viewers' auto-rotate flags are uniform: they all equal the stored rotate
    flag, or pause is on and they are all off.  In particular, whenever
    pause is off every viewer's flag is the stored rotate flag. *)
Theorem session_flags_follow (fuel : nat) (d : Document) (es : list Event) :
  ∃ st, session (S (S fuel)) es (page_of (DOMContentLoaded d)) = Some st ∧
    (all_autoRotate (isRotating st) st ∨ (isPaused st = true ∧ all_autoRotate false st)) ∧
    (isPaused st = false → all_autoRotate (isRotating st) st).
Proof.
  destruct (session_settled fuel es (page_of (DOMContentLoaded d))
              (DOMContentLoaded_at_rest d) (loaded_settled d))
    as (st & Hrun & _ & _ & _ & Hflags).
  exists st. split; [exact Hrun|]. split; [exact Hflags|].
  intros Hp. destruct Hflags as [Hf|[Hp' _]]; [exact Hf|congruence].
Qed.

(** X13.  Whatever listeners run after [DOMContentLoaded], they all run
    to completion, and on the page they leave no pass is in progress, the
    group is empty or is the three viewers one sample switch built (no two
    sharing a camera or a controls object, each viewer's controls driving
    that viewer's camera), and every load issued so far closes over a scene
    and a loading indicator that exist. *)
Theorem session_group (fuel : nat) (d : Document) (es : list Event) :
  ∃ st, session (S (S fuel)) es (page_of (DOMContentLoaded d)) = Some st ∧
    isSyncing st = false ∧
    (allViewers st = [] ∨ ∃ n, allViewers st = new_group n ∧ (18 + n ≤ next (heap st))%nat) ∧
    (length (allViewers st) = 0 ∨ length (allViewers st) = 3) ∧
    well_formed st ∧
    Forall (λ req, load_scene req < next (heap st) ∧ load_loading req < next (heap st))
           (loads st).
Proof.
  destruct (session_settled fuel es (page_of (DOMContentLoaded d))
              (DOMContentLoaded_at_rest d) (loaded_settled d))
    as (st & Hrun & (Hs & Hwf & _) & Hshape & Halloc & _).
  exists st. split; [exact Hrun|]. split; [exact Hs|]. split; [exact Hshape|].
  split; [|split; [exact Hwf|exact Halloc]].
  destruct Hshape as [->|(n & -> & _)]; [by left|by right].
Qed.

(** C4, amended.  Switching pause on sets every viewer's auto-rotate flag
    off whatever the stored rotate flag is, and leaves the stored flag as
    it is.  While pause is on, the listeners other than the click handlers
    (mouse, ['change'], frames, load callbacks) all run to completion and
    leave pause on and the stored flag, the group and every flag as they
    are.  A click on the rotate toggle in that interval leaves pause on,
    flips the stored flag and sets every viewer's flag to the flipped
    value; a sample switch leaves pause on and the stored flag as it is,
    and every viewer of the group it leaves (three new viewers if the
    selector finds the sample's element, none otherwise) has its flag at
    the stored flag.  Switching pause off sets every viewer's flag to the
    stored flag. *)
Theorem pause_forces_off_once (fuel : nat) (st : Page) :
  at_rest st →
  (isPaused st = false →
   isPaused (pause_click st) = true ∧
   isRotating (pause_click st) = isRotating st ∧
   allViewers (pause_click st) = allViewers st ∧
   all_autoRotate false (pause_click st)) ∧
  (isPaused st = true →
   (∀ es, Forall not_a_click es →
      ∃ st', session (S (S fuel)) es st = Some st' ∧
        isPaused st' = true ∧ isRotating st' = isRotating st ∧
        allViewers st' = allViewers st ∧
        ∀ r, autoRotate (controls_at st' r) = autoRotate (controls_at st r)) ∧
   (isPaused (rotate_click st) = true ∧
    isRotating (rotate_click st) = negb (isRotating st) ∧
    allViewers (rotate_click st) = allViewers st ∧
    all_autoRotate (negb (isRotating st)) (rotate_click st)) ∧
   (∀ objName,
      isPaused (page_of (loadTab objName st)) = true ∧
      isRotating (page_of (loadTab objName st)) = isRotating st ∧
      all_autoRotate (isRotating st) (page_of (loadTab objName st)) ∧
      allViewers (page_of (loadTab objName st))
        = match querySelector_data_obj (text_of objName) (document st) with
          | Found _ => new_group (next (heap st))
          | Null | SyntaxError => []
          end) ∧
   (isPaused (pause_click st) = false ∧
    isRotating (pause_click st) = isRotating st ∧
    allViewers (pause_click st) = allViewers st ∧
    all_autoRotate (isRotating st) (pause_click st))).
Proof.
  intros Hrest.
  destruct (pause_click_variables st) as (Hpp & Hpr & _ & Hpg).
  destruct (pause_click_spec st) as (_ & _ & _ & _ & Hpa).
  split.
  - intros Hp. rewrite Hp in Hpp, Hpa. done.
  - intros Hp. rewrite Hp in Hpp, Hpa. split; [|split; [|split]].
    + intros es Hes.
      destruct (session_quiet fuel es st Hrest Hes)
        as (st' & Hrun & _ & Hg & Hr & Hp' & _ & _ & Hflags).
      exists st'. split; [exact Hrun|]. split; [congruence|]. done.
    + destruct (rotate_click_variables st) as (Hrr & Hrp & _ & Hrg).
      destruct (rotate_click_spec st) as (_ & _ & _ & _ & Hra).
      split; [congruence|]. done.
    + intros objName.
      destruct (loadTab_flags objName st) as (Hlr & Hlp & Hla).
      split; [congruence|]. split; [exact Hlr|]. split; [exact Hla|].
      destruct (querySelector_data_obj (text_of objName) (document st)) as [btn| |] eqn:Hq.
      * by destruct (loadTab_returns objName st btn Hq) as (st' & -> & Hgroup & _).
      * rewrite loadTab_throws by (by rewrite Hq). apply clearViewers_empties.
      * rewrite loadTab_throws by (by rewrite Hq). apply clearViewers_empties.
    + done.
Qed.
End Reachable.

Section Reachable_demo.
#[local] Existing Instance test_three.
#[local] Existing Instance test_engine.

Lemma demo_page_at_rest : at_rest demo_page.
Proof. exact (DOMContentLoaded_at_rest demo_document). Qed.

Lemma pause_forces_off_once_witness :
  at_rest (pause_click demo_page) ∧ isPaused (pause_click demo_page) = true ∧
  all_autoRotate false (rotate_click (pause_click demo_page)) ∧
  all_autoRotate true (page_of (loadTab (Some "example_2") (pause_click demo_page))) ∧
  allViewers (page_of (loadTab (Some "example_2") (pause_click demo_page))) = new_group 18 ∧
  all_autoRotate true (pause_click (pause_click demo_page)).
Proof.
  assert (Hrest : at_rest (pause_click demo_page)).
  { apply (click_at_rest PauseClick). exact demo_page_at_rest. }
  assert (Hp : isPaused (pause_click demo_page) = true) by (vm_compute; reflexivity).
  split; [exact Hrest|]. split; [exact Hp|].
  destruct (pause_forces_off_once 0 (pause_click demo_page) Hrest) as [_ Hpaused].
  destruct (Hpaused Hp) as (_ & (_ & _ & _ & Hrotate) & Hswitch & (_ & _ & _ & Hresume)).
  destruct (Hswitch (Some "example_2")) as (_ & _ & Hflags & Hgroup).
  split; [exact Hrotate|]. split; [exact Hflags|]. split; [|exact Hresume].
  rewrite Hgroup.
  assert (Hq : querySelector_data_obj (text_of (Some "example_2"))
                 (document (pause_click demo_page)) = Found demo_example_2)
    by (vm_compute; reflexivity).
  rewrite Hq. vm_compute. reflexivity.
Defined.
End Reachable_demo.

Lemma syncCameras_others_witness :
  well_formed demo_page ∧ isSyncing demo_page = false ∧
  demo_second ∈ allViewers demo_page ∧ controls demo_second ≠ controls demo_source ∧
  ∃ st', syncCameras (H := test_three) 2 6 demo_page = Some st' ∧
    camera_at st' 9
      = update_camera (handed_over (H := test_three)
                         (source_spherical (H := test_three) 6 demo_page)
                         demo_second demo_page) ∧
    target (controls_at st' 11)
      = update_target (handed_over (H := test_three)
                         (source_spherical (H := test_three) 6 demo_page)
                         demo_second demo_page).
Proof.
  assert (Hin : demo_second ∈ allViewers demo_page).
  { vm_compute. apply list_elem_of_further, list_elem_of_here. }
  assert (Hne : controls demo_second ≠ controls demo_source) by (cbn; lia).
  split; [exact demo_page_well_formed|]. split; [vm_compute; reflexivity|].
  split; [exact Hin|]. split; [exact Hne|].
  apply (syncCameras_others (H := test_three) 0 demo_source demo_second demo_page).
  - exact demo_page_well_formed.
  - vm_compute. reflexivity.
  - exact Hin.
  - exact Hne.
Defined.
